(** * EMG Field Ops: the route, tally, print-sheet and map-layer logic

    A shallow embedding of the front end's state handling:
    - [Home] (the page component): the state cells, [handleTargetClick],
      [handleClearRoute], [logResult] and the street-sheet table;
    - [DataLoad]: the page's data-loading effect, over raw JSON documents;
    - [MapComponent]: the route-line effect over a small model of the
      Leaflet map (a list of stamped layers);
    - [ControlPanel]: the controls it renders and what a click dispatches.

    Numbers.  JavaScript numbers are modelled by [Z] where the program uses
    them as integers (scores, counters, indices, kWh, ...) and by [Q] for
    the coordinates, which are only ever copied.  Counters are far below
    2^53, where [+ 1] on a double is exact. *)

From Stdlib Require Import List ZArith String Lia Bool Sorted Permutation QArith.
Import ListNotations.
Close Scope Q_scope.
Local Open Scope string_scope.

(* ===================================================================== *)
(** ** JavaScript array helpers                                          *)
(* ===================================================================== *)

Module JS.

(** [arr.map((x, idx) => f x idx)]: the callback also receives the
    zero-based index. *)
Fixpoint map_from {A B : Type} (f : A -> nat -> B) (i : nat) (l : list A) : list B :=
  match l with
  | [] => []
  | x :: l' => f x i :: map_from f (S i) l'
  end.

Definition mapi {A B : Type} (f : A -> nat -> B) (l : list A) : list B :=
  map_from f 0 l.

(** [arr.forEach((x, idx) => body)] threading the state the body mutates. *)
Fixpoint forEach_from {A St : Type} (body : A -> nat -> St -> St) (i : nat)
         (l : list A) (s : St) : St :=
  match l with
  | [] => s
  | x :: l' => forEach_from body (S i) l' (body x i s)
  end.

Definition forEach {A St : Type} (body : A -> nat -> St -> St) (l : list A) (s : St) : St :=
  forEach_from body 0 l s.

(** [Array.prototype.sort(cmp)].  The comparator returns a number:
    negative puts its first argument first, positive its second, zero
    keeps the original relative order (the sort is stable).  For a
    consistent comparator the result is determined by that contract; it
    is computed here by stable insertion. *)
Fixpoint insert {A : Type} (cmp : A -> A -> Z) (x : A) (l : list A) : list A :=
  match l with
  | [] => [x]
  | y :: l' => if (cmp x y <=? 0)%Z then x :: y :: l' else y :: insert cmp x l'
  end.

Definition sort {A : Type} (cmp : A -> A -> Z) (l : list A) : list A :=
  fold_right (insert cmp) [] l.

End JS.

(* ===================================================================== *)
(** ** Data model                                                        *)
(* ===================================================================== *)

(** [interface Target] (the same fields in the page and in the map). *)
Record Target : Type := mkTarget {
  id      : string;
  lat     : Q;
  lng     : Q;
  address : string;
  score   : Z;
  lmi     : bool;
  kwh     : Z;
  owner   : bool;
  sqft    : Z;
  year    : Z
}.

(** [interface Zone] of the map component. *)
Record ZoneProperties : Type := mkZoneProperties {
  GEOID       : string;
  NAME        : string;
  COUNTY_NAME : option string;
  zone_score  : option Z
}.

Record Zone : Type := mkZone {
  zone_type  : string;
  properties : ZoneProperties;
  geometry   : list (list (Q * Q))
}.

(** The result passed to [logResult]: ['deal' | 'callback' | 'ni' | 'nh']. *)
Inductive Result : Type := deal | callback | ni | nh.

Definition Result_eqb (a b : Result) : bool :=
  match a, b with
  | deal, deal | callback, callback | ni, ni | nh, nh => true
  | _, _ => false
  end.

Inductive View : Type := view_map | view_sheet.

Record Stats : Type := mkStats {
  doors     : Z;
  deals     : Z;
  callbacks : Z
}.

(* ===================================================================== *)
(** ** The page component [Home]                                         *)
(* ===================================================================== *)

Module Home.

(** One field per [useState] cell. *)
Record State : Type := mkState {
  zones        : list Zone;
  targets      : list Target;
  loading      : bool;
  showLMI      : bool;
  showTargets  : bool;
  showRoute    : bool;
  routeTargets : list Target;
  currentView  : View;
  stats        : Stats
}.

(** The initial values given to [useState]. *)
Definition initial : State :=
  {| zones := []; targets := []; loading := true;
     showLMI := true; showTargets := true; showRoute := false;
     routeTargets := []; currentView := view_map;
     stats := {| doors := 0; deals := 0; callbacks := 0 |} |}.

Definition setRouteTargets (r : list Target) (st : State) : State :=
  {| zones := zones st; targets := targets st; loading := loading st;
     showLMI := showLMI st; showTargets := showTargets st;
     showRoute := showRoute st; routeTargets := r;
     currentView := currentView st; stats := stats st |}.

Definition setShowRoute (b : bool) (st : State) : State :=
  {| zones := zones st; targets := targets st; loading := loading st;
     showLMI := showLMI st; showTargets := showTargets st;
     showRoute := b; routeTargets := routeTargets st;
     currentView := currentView st; stats := stats st |}.

Definition setShowLMI (b : bool) (st : State) : State :=
  {| zones := zones st; targets := targets st; loading := loading st;
     showLMI := b; showTargets := showTargets st;
     showRoute := showRoute st; routeTargets := routeTargets st;
     currentView := currentView st; stats := stats st |}.

Definition setShowTargets (b : bool) (st : State) : State :=
  {| zones := zones st; targets := targets st; loading := loading st;
     showLMI := showLMI st; showTargets := b;
     showRoute := showRoute st; routeTargets := routeTargets st;
     currentView := currentView st; stats := stats st |}.

(** [setStats(prev => f prev)]. *)
Definition setStats (f : Stats -> Stats) (st : State) : State :=
  {| zones := zones st; targets := targets st; loading := loading st;
     showLMI := showLMI st; showTargets := showTargets st;
     showRoute := showRoute st; routeTargets := routeTargets st;
     currentView := currentView st; stats := f (stats st) |}.

(** [handleTargetClick]: [find] yields the first entry with the clicked
    identifier (an object, hence truthy) or [undefined]. *)
Definition handleTargetClick (target : Target) (st : State) : State :=
  match find (fun t => id t =? id target) (routeTargets st) with
  | Some _ =>
      setRouteTargets
        (filter (fun t => negb (id t =? id target)) (routeTargets st)) st
  | None =>
      setRouteTargets (routeTargets st ++ [target]) st
  end.

(** [handleClearRoute]. *)
Definition handleClearRoute (st : State) : State :=
  setShowRoute false (setRouteTargets [] st).

(** [logResult]; the target identifier is not used by the body. *)
Definition logResult (targetId : string) (result : Result) (st : State) : State :=
  setStats (fun prev =>
    {| doors := doors prev + 1;
       deals := if Result_eqb result deal then deals prev + 1 else deals prev;
       callbacks := if Result_eqb result callback
                    then callbacks prev + 1 else callbacks prev |}) st.

(** A row of the street-sheet table: the cells that carry data (the
    result box and the notes cell are always blank). *)
Record SheetRow : Type := mkSheetRow {
  row_key     : string;
  row_number  : Z;
  row_address : string;
  row_score   : Z;
  row_lmi     : string;
  row_owner   : string;
  row_kwh     : Z
}.

(** The mark of the LMI and owner cells, as the page's source has it. *)
Definition check_mark : string := "âœ“".

Definition sheet_row (target : Target) (idx : nat) : SheetRow :=
  {| row_key := id target;
     row_number := Z.of_nat idx + 1;
     row_address := address target;
     row_score := score target;
     row_lmi := if lmi target then check_mark else "";
     row_owner := if owner target then check_mark else "R";
     row_kwh := kwh target |}.

(** The table body:
    [(routeTargets.length > 0 ? routeTargets : targets).map(...)]. *)
Definition street_sheet (st : State) : list SheetRow :=
  JS.mapi sheet_row
    (if (0 <? List.length (routeTargets st))%nat then routeTargets st else targets st).

(** What the user can do to the page.  [handlePrintStreetSheet] only
    calls [window.print()] and leaves every cell as it is. *)
Inductive Action : Type :=
| TargetClick (target : Target)
| ClearRoute
| StartRoute
| PrintStreetSheet
| LogResult (targetId : string) (result : Result)
| SetShowLMI (v : bool)
| SetShowTargets (v : bool)
| SetShowRoute (v : bool).

Definition step (st : State) (a : Action) : State :=
  match a with
  | TargetClick target => handleTargetClick target st
  | ClearRoute => handleClearRoute st
  | StartRoute => setShowRoute true st
  | PrintStreetSheet => st
  | LogResult targetId result => logResult targetId result st
  | SetShowLMI v => setShowLMI v st
  | SetShowTargets v => setShowTargets v st
  | SetShowRoute v => setShowRoute v st
  end.

Definition run (acts : list Action) (st : State) : State :=
  fold_left step acts st.

End Home.

(* ===================================================================== *)
(** ** The data-loading effect of [Home]                                 *)
(* ===================================================================== *)

(** The effect stores whatever the two documents contain: the type
    annotations are erased at run time, so the cells are modelled here as
    raw JSON values.  Numbers of a document are taken as integers. *)
Module DataLoad.

Set Warnings "-register-all".

Inductive json : Type :=
| JNull
| JBool (b : bool)
| JNum (n : Z)
| JStr (s : string)
| JArr (items : list json)
| JObj (fields : list (string * json)).

Set Warnings "register-all".

(** A JavaScript expression either yields a value or throws (here always
    a [TypeError]). *)
Inductive Completion (A : Type) : Type :=
| Normal (a : A)
| Throw.
Arguments Normal {A} a.
Arguments Throw {A}.

(** How one request ends: [fetch] rejects, or the body is not JSON and
    [r.json()] rejects, or the body parses to a value. *)
Inductive FetchOutcome : Type :=
| NetworkError
| BodyNotJSON
| Body (doc : json).

(** The three cells the effect writes. *)
Record Cells : Type := mkCells {
  zones   : json;
  targets : json;
  loading : bool
}.

Definition initial : Cells :=
  {| zones := JArr []; targets := JArr []; loading := true |}.

(** How the promise returned by the [.then] callback settles, with the
    cells as they stand at that moment (a setter called before a throw
    has taken effect). *)
Inductive Settled : Type :=
| Fulfilled (c : Cells)
| Rejected (c : Cells).

Definition cells_of (s : Settled) : Cells :=
  match s with Fulfilled c | Rejected c => c end.

Definition rejected (s : Settled) : bool :=
  match s with Fulfilled _ => false | Rejected _ => true end.

(** [fetch(url).then(r => r.json()).catch(() => fallback)]. *)
Definition with_fallback (o : FetchOutcome) (fallback : json) : json :=
  match o with
  | NetworkError | BodyNotJSON => fallback
  | Body doc => doc
  end.

(** An object built by [JSON.parse]: a repeated key keeps its last value. *)
Fixpoint own_property (k : string) (fields : list (string * json)) : option json :=
  match fields with
  | [] => None
  | (k', v) :: rest =>
      match own_property k rest with
      | Some v' => Some v'
      | None => if k' =? k then Some v else None
      end
  end.

(** [v.features]; [None] is [undefined].  Reading a property of [null]
    throws; no prototype has a [features] property. *)
Definition get_features (v : json) : Completion (option json) :=
  match v with
  | JNull => Throw
  | JObj fields => Normal (own_property "features" fields)
  | _ => Normal None
  end.

(** [v.length].  For a string only whether the count is zero matters
    below, and there the byte count agrees with the code-unit count. *)
Definition get_length (v : json) : Completion (option json) :=
  match v with
  | JNull => Throw
  | JArr items => Normal (Some (JNum (Z.of_nat (List.length items))))
  | JStr s => Normal (Some (JNum (Z.of_nat (String.length s))))
  | JObj fields => Normal (own_property "length" fields)
  | JNum _ | JBool _ => Normal None
  end.

(** [if (v)]. *)
Definition truthy (v : option json) : bool :=
  match v with
  | None | Some JNull => false
  | Some (JBool b) => b
  | Some (JNum n) => negb (n =? 0)%Z
  | Some (JStr s) => negb (s =? "")
  | Some (JArr _) | Some (JObj _) => true
  end.

Section Effect.

(** [v > 0] for an operand that is a string, an array or an object is
    decided by the engine's ToPrimitive and StringToNumber, and can
    itself throw; the engine is a parameter of the model. *)
Variable coerced_gt_zero : json -> Completion bool.

(** [v > 0]: [undefined] is NaN, [null] is 0, [true] is 1. *)
Definition gt_zero (v : option json) : Completion bool :=
  match v with
  | None | Some JNull => Normal false
  | Some (JBool b) => Normal b
  | Some (JNum n) => Normal (0 <? n)%Z
  | Some w => coerced_gt_zero w
  end.

(** The callback given to [Promise.all(...).then]. *)
Definition on_both (zoneData targetData : json) (c : Cells) : Settled :=
  match get_features zoneData with
  | Throw => Rejected c
  | Normal features =>
      let c1 :=
        if truthy features
        then match features with
             | Some f => {| zones := f; targets := targets c; loading := loading c |}
             | None => c
             end
        else c in
      match get_length targetData with
      | Throw => Rejected c1
      | Normal len =>
          match gt_zero len with
          | Throw => Rejected c1
          | Normal positive =>
              let c2 :=
                if positive
                then {| zones := zones c1; targets := targetData; loading := loading c1 |}
                else c1 in
              Fulfilled {| zones := zones c2; targets := targets c2; loading := false |}
          end
      end
  end.

(** The whole effect, once both requests have settled. *)
Definition load (zoneOutcome targetOutcome : FetchOutcome) : Settled :=
  on_both
    (with_fallback zoneOutcome (JObj [("features", JArr [])]))
    (with_fallback targetOutcome (JArr []))
    initial.

End Effect.

(** A request that failed before yielding a document. *)
Definition fetch_failed (o : FetchOutcome) : Prop :=
  o = NetworkError \/ o = BodyNotJSON.

End DataLoad.

(* ===================================================================== *)
(** ** The map widget, as far as the route effect uses it                *)
(* ===================================================================== *)

Module Leaflet.

(** What the program puts on the map.  [RouteNumber] is the marker with
    the ['route-number'] icon; its label is [idx + 1]. *)
Inductive Layer : Type :=
| TileLayer (url : string)
| LayerGroup
| Polyline (coords : list (Q * Q))
| RouteNumber (label : Z) (latlng : Q * Q).

(** The map keeps its layers under the stamp each layer object gets when
    it is added; stamps are never reused. *)
Record Map : Type := mkMap {
  lastId : nat;
  layers : list (nat * Layer)
}.

(** [layer.addTo(map)] for a freshly built layer; yields the map and the
    reference to the layer object. *)
Definition addTo (l : Layer) (m : Map) : Map * nat :=
  ({| lastId := S (lastId m); layers := layers m ++ [(S (lastId m), l)] |},
   S (lastId m)).

(** [map.removeLayer(layer)]. *)
Definition removeLayer (ref : nat) (m : Map) : Map :=
  {| lastId := lastId m;
     layers := filter (fun e => negb (fst e =? ref)%nat) (layers m) |}.

Definition is_polyline (l : Layer) : bool :=
  match l with Polyline _ => true | _ => false end.

Definition is_route_number (l : Layer) : bool :=
  match l with RouteNumber _ _ => true | _ => false end.

(** The artifacts of the route layer: the line and the order badges. *)
Definition is_route_artifact (l : Layer) : bool :=
  is_polyline l || is_route_number l.

Definition route_artifacts (m : Map) : list Layer :=
  filter is_route_artifact (map snd (layers m)).

End Leaflet.

Module MapComponent.

(** The refs the route effect reads and writes ([.current] of each). *)
Record Refs : Type := mkRefs {
  mapRef        : option Leaflet.Map;
  routeLayerRef : option nat
}.

(** The refs after the mount effect: the map with the light base layer
    and the marker layer group. *)
Definition mounted : Refs :=
  let m0 := {| Leaflet.lastId := 0; Leaflet.layers := [] |} in
  let m1 := fst (Leaflet.addTo
    (Leaflet.TileLayer "https://{s}.basemaps.cartocdn.com/light_all/{z}/{x}/{y}{r}.png") m0) in
  let m2 := fst (Leaflet.addTo Leaflet.LayerGroup m1) in
  {| mapRef := Some m2; routeLayerRef := None |}.

(** [(a, b) => b.score - a.score]. *)
Definition by_score_desc (a b : Target) : Z := (score b - score a)%Z.

(** The marker colour of the target layer:
    [score >= 80 ? '#22c55e' : score >= 60 ? '#eab308' : '#6b7280'],
    on the integer scores of the model. *)
Definition marker_color (target : Target) : string :=
  if (80 <=? score target)%Z then "#22c55e"
  else if (60 <=? score target)%Z then "#eab308"
  else "#6b7280".

Definition latlng (t : Target) : Q * Q := (lat t, lng t).

(** The body of [sorted.forEach]: one numbered marker, added to the map
    and referenced nowhere. *)
Definition add_route_number (target : Target) (idx : nat) (m : Leaflet.Map) : Leaflet.Map :=
  fst (Leaflet.addTo (Leaflet.RouteNumber (Z.of_nat idx + 1) (latlng target)) m).

(** The first step of the route effect:
    [if (routeLayerRef.current) { removeLayer(routeLayerRef.current); ... }]. *)
Definition remove_route_line (r : Refs) (m : Leaflet.Map) : Leaflet.Map :=
  match routeLayerRef r with
  | Some line => Leaflet.removeLayer line m
  | None => m
  end.

(** The "Update route line" effect; it runs when [targets] or
    [showRoute] changes. *)
Definition route_effect (targets : list Target) (showRoute : bool) (r : Refs) : Refs :=
  match mapRef r with
  | None => r
  | Some m =>
      let m1 := remove_route_line r m in
      if showRoute && (1 <? List.length targets)%nat then
        let sorted := JS.sort by_score_desc targets in
        let coords := map latlng sorted in
        let (m2, line) := Leaflet.addTo (Leaflet.Polyline coords) m1 in
        let m3 := JS.forEach add_route_number sorted m2 in
        {| mapRef := Some m3; routeLayerRef := Some line |}
      else
        {| mapRef := Some m1; routeLayerRef := None |}
  end.

(** [<MapComponent targets={targets} showRoute={showRoute} ... />]: what
    the page hands to the effect. *)
Definition render_route (st : Home.State) (r : Refs) : Refs :=
  route_effect (Home.targets st) (Home.showRoute st) r.

(** Successive runs of the effect, one per change of its dependencies. *)
Definition rerender (props : list (list Target * bool)) (r : Refs) : Refs :=
  fold_left (fun r p => route_effect (fst p) (snd p) r) props r.

Definition artifacts (r : Refs) : list Leaflet.Layer :=
  match mapRef r with
  | Some m => Leaflet.route_artifacts m
  | None => []
  end.

End MapComponent.

(* ===================================================================== *)
(** ** The control panel                                                 *)
(* ===================================================================== *)

Module ControlPanel.

Inductive Tab : Type := tab_layers | tab_route | tab_scripts.

Definition Tab_eqb (a b : Tab) : bool :=
  match a, b with
  | tab_layers, tab_layers | tab_route, tab_route | tab_scripts, tab_scripts => true
  | _, _ => false
  end.

(** The data props; the callback props appear as the events below. *)
Record Props : Type := mkProps {
  showLMI      : bool;
  showTargets  : bool;
  showRoute    : bool;
  routeTargets : list Target
}.

(** What activating a control calls. *)
Inductive Event : Type :=
| setActiveTab (t : Tab)
| setExpandedScript (s : option string)
| setShowLMI (v : bool)
| setShowTargets (v : bool)
| setShowRoute (v : bool)
| onPrintStreetSheet
| onClearRoute.

Inductive ControlKind : Type := button | checkbox.

(** A control on screen; [caption] is its text without icon or quotes. *)
Record Control : Type := mkControl {
  kind     : ControlKind;
  caption  : string;
  disabled : bool;
  handler  : Event
}.

(** The keys of [SCRIPTS.objections], in order. *)
Definition objections : list string :=
  ["not interested"; "renting"; "already have solar";
   "too expensive"; "need to think"; "bad credit"].

Definition tab_buttons : list Control :=
  map (fun t => {| kind := button;
                   caption := match t with
                              | tab_layers => "Layers"
                              | tab_route => "Route"
                              | tab_scripts => "Scripts"
                              end;
                   disabled := false;
                   handler := setActiveTab t |})
      [tab_layers; tab_route; tab_scripts].

(** A checkbox reports the value it would take: the opposite of
    [checked]. *)
Definition layers_tab (p : Props) : list Control :=
  [ {| kind := checkbox; caption := "LMI Auto-Qualify Zones";
       disabled := false; handler := setShowLMI (negb (showLMI p)) |};
    {| kind := checkbox; caption := "Target Addresses";
       disabled := false; handler := setShowTargets (negb (showTargets p)) |};
    {| kind := checkbox; caption := "Walking Route";
       disabled := false; handler := setShowRoute (negb (showRoute p)) |} ].

(** [disabled={routeTargets.length === 0}] on both buttons. *)
Definition route_tab (p : Props) : list Control :=
  [ {| kind := button; caption := "Print Street Sheet";
       disabled := (List.length (routeTargets p) =? 0)%nat;
       handler := onPrintStreetSheet |};
    {| kind := button; caption := "Clear";
       disabled := (List.length (routeTargets p) =? 0)%nat;
       handler := onClearRoute |} ].

Definition scripts_tab (expandedScript : option string) : list Control :=
  map (fun objection =>
         {| kind := button; caption := objection; disabled := false;
            handler := setExpandedScript
              (match expandedScript with
               | Some s => if s =? objection then None else Some objection
               | None => Some objection
               end) |})
      objections.

(** Every control on screen for the panel's own state and its props. *)
Definition render (activeTab : Tab) (expandedScript : option string) (p : Props)
  : list Control :=
  tab_buttons ++
  (if Tab_eqb activeTab tab_layers then layers_tab p else []) ++
  (if Tab_eqb activeTab tab_route then route_tab p else []) ++
  (if Tab_eqb activeTab tab_scripts then scripts_tab expandedScript else []).

(** A click or tap on a control: a disabled control calls nothing. *)
Definition activate (c : Control) : option Event :=
  if disabled c then None else Some (handler c).

(** The props [Home] passes. *)
Definition props_of (st : Home.State) : Props :=
  {| showLMI := Home.showLMI st; showTargets := Home.showTargets st;
     showRoute := Home.showRoute st; routeTargets := Home.routeTargets st |}.

(** The callbacks [Home] passes; the two panel-local setters do not
    reach the page. *)
Definition page_action (e : Event) : option Home.Action :=
  match e with
  | setActiveTab _ | setExpandedScript _ => None
  | setShowLMI v => Some (Home.SetShowLMI v)
  | setShowTargets v => Some (Home.SetShowTargets v)
  | setShowRoute v => Some (Home.SetShowRoute v)
  | onPrintStreetSheet => Some Home.PrintStreetSheet
  | onClearRoute => Some Home.ClearRoute
  end.

End ControlPanel.

(* ===================================================================== *)
(** ** Vocabulary of the statements, and sample data                     *)
(* ===================================================================== *)

(** [a] may precede [b] in an order of descending score. *)
Definition score_ge (a b : Target) : Prop := (score a >= score b)%Z.

(** The order badges of one drawing of the route, in the order added. *)
Definition route_numbers (sorted : list Target) : list Leaflet.Layer :=
  JS.mapi (fun t idx => Leaflet.RouteNumber (Z.of_nat idx + 1) (MapComponent.latlng t))
          sorted.

(** The order badges on the map. *)
Definition badges_on_map (r : MapComponent.Refs) : list Leaflet.Layer :=
  filter Leaflet.is_route_number (MapComponent.artifacts r).

(** The order badges one run of the route effect adds for the props [p]. *)
Definition badges_drawn (p : list Target * bool) : list Leaflet.Layer :=
  if snd p && (1 <? List.length (fst p))%nat
  then route_numbers (JS.sort MapComponent.by_score_desc (fst p))
  else [].

(** What holds of the refs between runs of the route effect: the map is
    there, no layer carries a stamp beyond the last one issued, and the
    layer the line ref points to is not an order badge. *)
Definition refs_consistent (r : MapComponent.Refs) : Prop :=
  match MapComponent.mapRef r with
  | None => False
  | Some m =>
      Forall (fun e => (fst e <= Leaflet.lastId m)%nat) (Leaflet.layers m)
      /\ match MapComponent.routeLayerRef r with
         | None => True
         | Some line =>
             Forall (fun e => fst e = line -> Leaflet.is_route_number (snd e) = false)
                    (Leaflet.layers m)
         end
  end.

(** Three targets with the scores 90, 40 and 70, in that order. *)
Definition target_a : Target :=
  {| id := "t-001"; lat := 3754 # 100; lng := -7743 # 100; address := "12 Oak St";
     score := 90; lmi := true; kwh := 1450; owner := true;
     sqft := 1800; year := 1984 |}.

Definition target_b : Target :=
  {| id := "t-002"; lat := 3755 # 100; lng := -7745 # 100; address := "48 Elm Ave";
     score := 40; lmi := false; kwh := 900; owner := false;
     sqft := 1200; year := 1999 |}.

Definition target_c : Target :=
  {| id := "t-003"; lat := 3753 # 100; lng := -7741 # 100; address := "7 Pine Ct";
     score := 70; lmi := true; kwh := 1100; owner := true;
     sqft := 1500; year := 1972 |}.

Definition sample_targets : list Target := [target_a; target_b; target_c].

(** The page with the sample targets loaded. *)
Definition sample_page (showRoute : bool) (route : list Target) : Home.State :=
  {| Home.zones := []; Home.targets := sample_targets; Home.loading := false;
     Home.showLMI := true; Home.showTargets := true; Home.showRoute := showRoute;
     Home.routeTargets := route; Home.currentView := view_map;
     Home.stats := {| doors := 0; deals := 0; callbacks := 0 |} |}.

(** A target document with one record. *)
Definition sample_target_document : DataLoad.json :=
  DataLoad.JArr
    [DataLoad.JObj
       [("id", DataLoad.JStr "t-001"); ("address", DataLoad.JStr "12 Oak St");
        ("score", DataLoad.JNum 90); ("lmi", DataLoad.JBool true);
        ("kwh", DataLoad.JNum 1450); ("owner", DataLoad.JBool true);
        ("sqft", DataLoad.JNum 1800); ("year", DataLoad.JNum 1984)]].

(** A zone document with one feature. *)
Definition sample_zone_features : DataLoad.json :=
  DataLoad.JArr
    [DataLoad.JObj
       [("type", DataLoad.JStr "Feature");
        ("properties",
         DataLoad.JObj [("GEOID", DataLoad.JStr "51760040200");
                        ("NAME", DataLoad.JStr "Census Tract 402")]);
        ("geometry", DataLoad.JNull)]].

Definition sample_zone_document : DataLoad.json :=
  DataLoad.JObj [("type", DataLoad.JStr "FeatureCollection");
                 ("features", sample_zone_features)].

(** An engine that finds no number in any coerced operand (every such
    comparison is false); the sample documents never consult it. *)
Definition sample_engine : DataLoad.json -> DataLoad.Completion bool :=
  fun _ => DataLoad.Normal false.

(* ===================================================================== *)
(** ** The target-marker effect of the map component                     *)
(* ===================================================================== *)

Module TargetMarkers.

(** The popup bound to a marker: the values interpolated into its markup.
    [sqft] is shown through [toLocaleString()]; the number is kept here. *)
Record Popup : Type := mkPopup {
  popup_address : string;
  popup_color   : string;
  popup_score   : Z;
  popup_lmi     : string;
  popup_kwh     : Z;
  popup_owner   : string;
  popup_sqft    : Z;
  popup_year    : Z
}.

(** A marker of the target layer; [on_click] is the target its click
    listener hands to [onTargetClick]. *)
Record Marker : Type := mkMarker {
  position   : Q * Q;
  icon_color : string;
  icon_label : Z;
  popup      : Popup;
  on_click   : Target
}.

(** The body of [targets.forEach]: the marker built for one target. *)
Definition marker_of (target : Target) : Marker :=
  let color := MapComponent.marker_color target in
  {| position := (lat target, lng target);
     icon_color := color;
     icon_label := score target;
     popup := {| popup_address := address target;
                 popup_color := color;
                 popup_score := score target;
                 popup_lmi := if lmi target then "✅ Yes" else "❌ No";
                 popup_kwh := kwh target;
                 popup_owner := if owner target then "✅" else "🏠 Rent";
                 popup_sqft := sqft target;
                 popup_year := year target |};
     on_click := target |}.

(** The refs the effect tests, and the markers held by the layer group
    [markerLayerRef.current]. *)
Record Refs : Type := mkRefs {
  mapRef         : bool;
  markerLayerRef : option (list Marker)
}.

(** After the mount effect both refs are set and the group is empty. *)
Definition mounted : Refs := {| mapRef := true; markerLayerRef := Some [] |}.

(** [marker.addTo(markerLayerRef.current!)]. *)
Definition add_marker (target : Target) (idx : nat) (group : list Marker) : list Marker :=
  (group ++ [marker_of target])%list.

(** The "Update target markers" effect. *)
Definition marker_effect (targets : list Target) (showTargets : bool) (r : Refs) : Refs :=
  match mapRef r, markerLayerRef r with
  | true, Some _ =>
      let cleared : list Marker := [] in
      {| mapRef := true;
         markerLayerRef :=
           Some (if showTargets && (0 <? List.length targets)%nat
                 then JS.forEach add_marker targets cleared
                 else cleared) |}
  | _, _ => r
  end.

Definition rerender (props : list (list Target * bool)) (r : Refs) : Refs :=
  fold_left (fun r p => marker_effect (fst p) (snd p) r) props r.

(** The markers on screen. *)
Definition markers (r : Refs) : list Marker :=
  match markerLayerRef r with
  | Some group => group
  | None => []
  end.

End TargetMarkers.

(* ===================================================================== *)
(** ** The zone-layer effect of the map component                        *)
(* ===================================================================== *)

Module ZoneLayer.

(** The three interpolations of the tooltip markup. *)
Record Tooltip : Type := mkTooltip {
  tooltip_name   : string;
  tooltip_geoid  : string;
  tooltip_county : string
}.

(** [props.NAME || 'Zone'], [props.GEOID || 'N/A'],
    [props.COUNTY_NAME ? 'County: ' + props.COUNTY_NAME : '']: an empty
    string is falsy, like a missing one. *)
Definition tooltip_of (zone : Zone) : Tooltip :=
  let props := properties zone in
  {| tooltip_name := if NAME props =? "" then "Zone" else NAME props;
     tooltip_geoid := if GEOID props =? "" then "N/A" else GEOID props;
     tooltip_county :=
       match COUNTY_NAME props with
       | Some county => if county =? "" then "" else "County: " ++ county
       | None => ""
       end |}.

(** The layer [L.geoJSON] builds: the features with the tooltip bound to
    each (the style is constant). *)
Record GeoJSON : Type := mkGeoJSON {
  features : list Zone;
  tooltips : list Tooltip
}.

(** South-west and north-east corners. *)
Definition Bounds : Type := ((Q * Q) * (Q * Q))%type.

Inductive View : Type :=
| setView (center : Q * Q) (zoom : Z)
| fitBounds (bounds : Bounds) (padding : Z * Z).

(** The map as this effect sees it: its GeoJSON layers by stamp, and the
    view. *)
Record Map : Type := mkMap {
  lastId      : nat;
  zone_layers : list (nat * GeoJSON);
  view        : View
}.

Record Refs : Type := mkRefs {
  mapRef       : option Map;
  zoneLayerRef : option nat
}.

(** After the mount effect: centred on Virginia at zoom 9, the two base
    layers stamped, no zone layer. *)
Definition mounted : Refs :=
  {| mapRef := Some {| lastId := 2; zone_layers := [];
                       view := setView ((375 # 10)%Q, (-775 # 10)%Q) 9 |};
     zoneLayerRef := None |}.

Definition removeLayer (ref : nat) (m : Map) : Map :=
  {| lastId := lastId m;
     zone_layers := filter (fun e => negb (fst e =? ref)%nat) (zone_layers m);
     view := view m |}.

Definition addTo (l : GeoJSON) (m : Map) : Map * nat :=
  ({| lastId := S (lastId m);
      zone_layers := (zone_layers m ++ [(S (lastId m), l)])%list;
      view := view m |},
   S (lastId m)).

Section Effect.

(** [layer.getBounds()] of the widget, [None] when [isValid()] is false. *)
Variable getBounds : list Zone -> option Bounds.

(** The "Update LMI zones layer" effect. *)
Definition zone_effect (zones : list Zone) (showLMI : bool) (r : Refs) : Refs :=
  match mapRef r with
  | None => r
  | Some m =>
      let m1 :=
        match zoneLayerRef r with
        | Some layer => removeLayer layer m
        | None => m
        end in
      if showLMI && (0 <? List.length zones)%nat then
        let (m2, layer) :=
          addTo {| features := zones; tooltips := map tooltip_of zones |} m1 in
        let m3 :=
          match getBounds zones with
          | Some bounds =>
              {| lastId := lastId m2; zone_layers := zone_layers m2;
                 view := fitBounds bounds (20, 20)%Z |}
          | None => m2
          end in
        {| mapRef := Some m3; zoneLayerRef := Some layer |}
      else
        {| mapRef := Some m1; zoneLayerRef := None |}
  end.

Definition rerender (props : list (list Zone * bool)) (r : Refs) : Refs :=
  fold_left (fun r p => zone_effect (fst p) (snd p) r) props r.

End Effect.

(** The zone layers on the map, and its view. *)
Definition shown (r : Refs) : list GeoJSON :=
  match mapRef r with
  | Some m => map snd (zone_layers m)
  | None => []
  end.

Definition view_of (r : Refs) : option View :=
  match mapRef r with
  | Some m => Some (view m)
  | None => None
  end.

End ZoneLayer.

(* ===================================================================== *)
(** ** The locate control of the map component                           *)
(* ===================================================================== *)

Module LocateControl.

(** What [getCurrentPosition] reports to the success or error callback. *)
Inductive Outcome : Type :=
| Position (latitude longitude : Q)
| PositionError (message : string).

(** What the two callbacks touch: the [userLocation] cell, the view, the
    "You are here" markers on the map and the alerts shown. *)
Record State : Type := mkState {
  userLocation : option (Q * Q);
  view         : ZoneLayer.View;
  user_markers : list (Q * Q);
  alerts       : list string
}.

Definition on_outcome (s : State) (o : Outcome) : State :=
  match o with
  | Position latitude longitude =>
      let loc := (latitude, longitude) in
      {| userLocation := Some loc;
         view := ZoneLayer.setView loc 15;
         user_markers := (user_markers s ++ [loc])%list;
         alerts := alerts s |}
  | PositionError message =>
      {| userLocation := userLocation s;
         view := view s;
         user_markers := user_markers s;
         alerts := (alerts s ++ [("Could not get location: " ++ message)%string])%list |}
  end.

Definition run (outcomes : list Outcome) (s : State) : State :=
  fold_left on_outcome outcomes s.

End LocateControl.

(* ===================================================================== *)
(** ** The stop list of the control panel's route tab                    *)
(* ===================================================================== *)

Module RouteTab.

Record Stop : Type := mkStop {
  stop_key        : string;
  stop_background : string;
  stop_number     : Z;
  stop_address    : string;
  stop_score      : Z;
  stop_lmi        : string;
  stop_owner      : string
}.

Definition stop_row (t : Target) (idx : nat) : Stop :=
  {| stop_key := id t;
     stop_background := if (Nat.modulo idx 2 =? 0)%nat then "#f9fafb" else "white";
     stop_number := Z.of_nat idx + 1;
     stop_address := address t;
     stop_score := score t;
     stop_lmi := if lmi t then "LMI ✓" else "";
     stop_owner := if owner t then "Owner ✓" else "Renter" |}.

(** Below the two buttons: a hint when the route is empty, else the
    header with the number of stops and one row per stop. *)
Inductive Body : Type :=
| Hint (text : string)
| Stops (count : nat) (rows : list Stop).

Definition body (p : ControlPanel.Props) : Body :=
  if (List.length (ControlPanel.routeTargets p) =? 0)%nat
  then Hint "Click targets on map to add to route"
  else Stops (List.length (ControlPanel.routeTargets p))
             (JS.mapi stop_row (ControlPanel.routeTargets p)).

Definition rows (b : Body) : list Stop :=
  match b with
  | Hint _ => []
  | Stops _ rows => rows
  end.

End RouteTab.

(* ===================================================================== *)
(** ** The page as the user drives it                                    *)
(* ===================================================================== *)

Module Page.

(** The page's cells together with the panel's own two cells. *)
Record UI : Type := mkUI {
  page           : Home.State;
  activeTab      : ControlPanel.Tab;
  expandedScript : option string
}.

Definition with_page (st : Home.State) (ui : UI) : UI :=
  {| page := st; activeTab := activeTab ui; expandedScript := expandedScript ui |}.

(** The markers the map shows for the page's [targets] and [showTargets]. *)
Definition markers (ui : UI) : list TargetMarkers.Marker :=
  TargetMarkers.markers
    (TargetMarkers.marker_effect (Home.targets (page ui)) (Home.showTargets (page ui))
                                 TargetMarkers.mounted).

(** The controls of the panel as rendered for the current cells. *)
Definition controls (ui : UI) : list ControlPanel.Control :=
  ControlPanel.render (activeTab ui) (expandedScript ui) (ControlPanel.props_of (page ui)).

(** The floating button: [routeTargets.length > 0 && <button ...>]. *)
Definition start_route_shown (ui : UI) : bool :=
  (0 <? List.length (Home.routeTargets (page ui)))%nat.

(** What a click on a control of the panel does. *)
Definition panel_click (c : ControlPanel.Control) (ui : UI) : UI :=
  match ControlPanel.activate c with
  | None => ui
  | Some (ControlPanel.setActiveTab t) =>
      {| page := page ui; activeTab := t; expandedScript := expandedScript ui |}
  | Some (ControlPanel.setExpandedScript s) =>
      {| page := page ui; activeTab := activeTab ui; expandedScript := s |}
  | Some e =>
      match ControlPanel.page_action e with
      | Some a => with_page (Home.step (page ui) a) ui
      | None => ui
      end
  end.

(** What the user can click: the k-th marker, the k-th control of the
    panel, the floating button. *)
Inductive Click : Type :=
| OnMarker (k : nat)
| OnControl (k : nat)
| OnStartRoute.

Definition click (ui : UI) (c : Click) : UI :=
  match c with
  | OnMarker k =>
      match nth_error (markers ui) k with
      | Some m => with_page (Home.handleTargetClick (TargetMarkers.on_click m) (page ui)) ui
      | None => ui
      end
  | OnControl k =>
      match nth_error (controls ui) k with
      | Some c => panel_click c ui
      | None => ui
      end
  | OnStartRoute =>
      if start_route_shown ui
      then with_page (Home.setShowRoute true (page ui)) ui
      else ui
  end.

Definition clicks (cs : list Click) (ui : UI) : UI := fold_left click cs ui.

(** The page once loaded, before any click. *)
Definition loaded (zones : list Zone) (targets : list Target) : UI :=
  {| page := {| Home.zones := zones; Home.targets := targets; Home.loading := false;
                Home.showLMI := true; Home.showTargets := true;
                Home.showRoute := false; Home.routeTargets := [];
                Home.currentView := view_map;
                Home.stats := {| doors := 0; deals := 0; callbacks := 0 |} |};
     activeTab := ControlPanel.tab_layers;
     expandedScript := None |}.

End Page.

(* ===================================================================== *)
(** ** Vocabulary of the further statements                              *)
(* ===================================================================== *)

(** The route lines on the map. *)
Definition lines_on_map (r : MapComponent.Refs) : list Leaflet.Layer :=
  filter Leaflet.is_polyline (MapComponent.artifacts r).

(** The line one run of the route effect draws for the props [p]. *)
Definition line_drawn (p : list Target * bool) : list Leaflet.Layer :=
  if snd p && (1 <? List.length (fst p))%nat
  then [Leaflet.Polyline
          (map MapComponent.latlng (JS.sort MapComponent.by_score_desc (fst p)))]
  else [].

(** Between runs of the route effect every line on the map is the one the
    line ref points to. *)
Definition line_tracked (r : MapComponent.Refs) : Prop :=
  match MapComponent.mapRef r with
  | None => False
  | Some m =>
      Forall (fun e => Leaflet.is_polyline (snd e) = true ->
                       MapComponent.routeLayerRef r = Some (fst e))
             (Leaflet.layers m)
  end.

(** Between runs of the zone effect the map holds the referenced zone
    layer and no other. *)
Definition zone_tracked (r : ZoneLayer.Refs) : Prop :=
  match ZoneLayer.mapRef r with
  | None => False
  | Some m =>
      match ZoneLayer.zoneLayerRef r with
      | None => ZoneLayer.zone_layers m = []
      | Some layer => exists l, ZoneLayer.zone_layers m = [(layer, l)]
      end
  end.

(** The positions and the messages among the outcomes of the locate
    control, in order. *)
Definition fixes (outcomes : list LocateControl.Outcome) : list (Q * Q) :=
  flat_map (fun o => match o with
                     | LocateControl.Position la lo => [(la, lo)]
                     | LocateControl.PositionError _ => []
                     end) outcomes.

Definition failures (outcomes : list LocateControl.Outcome) : list string :=
  flat_map (fun o => match o with
                     | LocateControl.Position _ _ => []
                     | LocateControl.PositionError message => [message]
                     end) outcomes.

(** The actions a click can reach: a toggle of a target that has a marker,
    and every action but [logResult], which no control calls. *)
Definition click_action (st : Home.State) (a : Home.Action) : Prop :=
  match a with
  | Home.TargetClick target => In target (Home.targets st)
  | Home.LogResult _ _ => False
  | _ => True
  end.

(** A zone request that comes without zones: it failed, or its document
    is not [null] and has no truthy [features]. *)
Definition no_zones (o : DataLoad.FetchOutcome) : Prop :=
  DataLoad.fetch_failed o
  \/ exists doc features,
       o = DataLoad.Body doc
       /\ DataLoad.get_features doc = DataLoad.Normal features
       /\ DataLoad.truthy features = false.

(** A target request that comes without targets: it failed, or its
    document is not [null] and has no [length] above zero. *)
Definition no_targets (engine : DataLoad.json -> DataLoad.Completion bool)
           (o : DataLoad.FetchOutcome) : Prop :=
  DataLoad.fetch_failed o
  \/ exists doc len,
       o = DataLoad.Body doc
       /\ DataLoad.get_length doc = DataLoad.Normal len
       /\ DataLoad.gt_zero engine len = DataLoad.Normal false.

(** A sample zone, without a name. *)
Definition sample_zone : Zone :=
  {| zone_type := "Feature";
     properties := {| GEOID := "51760040200"; NAME := "";
                      COUNTY_NAME := Some "Richmond city"; zone_score := None |};
     geometry := [[((3754 # 100)%Q, (-7743 # 100)%Q);
                   ((3755 # 100)%Q, (-7743 # 100)%Q);
                   ((3755 # 100)%Q, (-7745 # 100)%Q)]] |}.

(* ===================================================================== *)
(** * Properties                                                         *)
(* ===================================================================== *)

Local Open Scope list_scope.

(** ** Array helpers *)

Section ArrayFacts.

Context {A B : Type}.

Lemma map_from_length (f : A -> nat -> B) (l : list A) :
  forall i, List.length (JS.map_from f i l) = List.length l.
Proof.
  induction l as [|x l IH]; intros i; simpl; [reflexivity|].
  now rewrite IH.
Qed.

(** Mapping with the index, then projecting with [g], when the
    projection does not look at the index. *)
Lemma map_from_project {C : Type} (f : A -> nat -> B) (g : B -> C) (h : A -> C)
      (l : list A) :
  (forall x i, g (f x i) = h x) ->
  forall i, map g (JS.map_from f i l) = map h l.
Proof.
  intros Hgf. induction l as [|x l IH]; intros i; simpl; [reflexivity|].
  now rewrite Hgf, IH.
Qed.

(** ... and when it is the index that is kept. *)
Lemma map_from_index {C : Type} (f : A -> nat -> B) (g : B -> C) (h : nat -> C)
      (l : list A) :
  (forall x i, g (f x i) = h i) ->
  forall i, map g (JS.map_from f i l) = map h (seq i (List.length l)).
Proof.
  intros Hgf. induction l as [|x l IH]; intros i; simpl; [reflexivity|].
  now rewrite Hgf, IH.
Qed.

Lemma map_from_nth (f : A -> nat -> B) (l : list A) :
  forall i k x, nth_error l k = Some x ->
                nth_error (JS.map_from f i l) k = Some (f x (i + k)).
Proof.
  induction l as [|y l IH]; intros i k x Hk.
  - destruct k; discriminate.
  - destruct k as [|k]; simpl in *.
    + injection Hk as ->. now rewrite Nat.add_0_r.
    + rewrite (IH (S i) k x Hk). f_equal. f_equal. lia.
Qed.

End ArrayFacts.

(** ** The sort *)

Section SortFacts.

Context {A : Type} (cmp : A -> A -> Z).

Lemma insert_perm (x : A) (l : list A) : Permutation (JS.insert cmp x l) (x :: l).
Proof.
  induction l as [|y l IH]; simpl; [reflexivity|].
  destruct (cmp x y <=? 0)%Z; [reflexivity|].
  rewrite IH. apply perm_swap.
Qed.

Lemma sort_perm (l : list A) : Permutation (JS.sort cmp l) l.
Proof.
  induction l as [|x l IH]; simpl; [reflexivity|].
  unfold JS.sort in *. simpl. rewrite insert_perm. now constructor.
Qed.

Lemma sort_length (l : list A) : List.length (JS.sort cmp l) = List.length l.
Proof. apply Permutation_length, sort_perm. Qed.

(** Stability of one insertion: for a class [p] of entries that the
    comparator never puts after [x], inserting [x] leaves [x] in front
    of the entries of its class. *)
Lemma insert_filter (p : A -> bool) (x : A) (l : list A) :
  (forall y, p x = true -> p y = true -> (cmp x y <=? 0)%Z = true) ->
  filter p (JS.insert cmp x l) = filter p (x :: l).
Proof.
  intros Htie. induction l as [|y l IH]; simpl; [reflexivity|].
  destruct (cmp x y <=? 0)%Z eqn:E; [reflexivity|].
  simpl. rewrite IH. simpl.
  destruct (p x) eqn:Px, (p y) eqn:Py; try reflexivity.
  rewrite (Htie y eq_refl Py) in E. discriminate.
Qed.

End SortFacts.

Lemma insert_sorted (x : Target) (l : list Target) :
  Sorted score_ge l -> Sorted score_ge (JS.insert MapComponent.by_score_desc x l).
Proof.
  induction l as [|y l IH]; intros Hs; simpl.
  - repeat constructor.
  - unfold MapComponent.by_score_desc at 1.
    destruct (score y - score x <=? 0)%Z eqn:E.
    + constructor; [assumption|]. constructor. unfold score_ge.
      apply Z.leb_le in E. lia.
    + apply Z.leb_gt in E. inversion Hs as [|? ? Hl Hhd]; subst.
      constructor; [now apply IH|].
      destruct l as [|z l]; simpl.
      * constructor. unfold score_ge. lia.
      * unfold MapComponent.by_score_desc at 1.
        destruct (score z - score x <=? 0)%Z; constructor.
        -- unfold score_ge. lia.
        -- now inversion Hhd.
Qed.

Lemma sort_sorted (l : list Target) :
  StronglySorted score_ge (JS.sort MapComponent.by_score_desc l).
Proof.
  apply Sorted_StronglySorted.
  - intros a b c. unfold score_ge. lia.
  - induction l as [|x l IH]; simpl; [constructor|].
    now apply insert_sorted.
Qed.

(** A descending list of scores is determined by its multiset. *)
Lemma descending_unique (l1 l2 : list Z) :
  StronglySorted Z.ge l1 -> StronglySorted Z.ge l2 -> Permutation l1 l2 -> l1 = l2.
Proof.
  revert l2. induction l1 as [|a l1 IH]; intros l2 H1 H2 HP.
  - apply Permutation_nil in HP. now subst.
  - destruct l2 as [|b l2].
    + apply Permutation_sym, Permutation_nil in HP. discriminate.
    + inversion H1 as [|? ? H1' Ha]; subst.
      inversion H2 as [|? ? H2' Hb]; subst.
      assert (a = b) as ->.
      { assert (In a (b :: l2)) as Hin
          by (eapply Permutation_in; [exact HP | now left]).
        assert (In b (a :: l1)) as Hin'
          by (eapply Permutation_in; [apply Permutation_sym; exact HP | now left]).
        destruct Hin as [->|Hin]; [reflexivity|].
        destruct Hin' as [->|Hin']; [reflexivity|].
        rewrite Forall_forall in Ha, Hb.
        specialize (Ha _ Hin'). specialize (Hb _ Hin). lia. }
      f_equal. apply IH; try assumption.
      now apply Permutation_cons_inv in HP.
Qed.

Lemma scores_descending (l : list Target) :
  StronglySorted score_ge l -> StronglySorted Z.ge (map score l).
Proof.
  induction 1 as [|a l Hs IH Ha]; simpl; constructor; [assumption|].
  rewrite Forall_forall in *. intros z Hz.
  apply in_map_iff in Hz as (t & <- & Ht). now apply Ha.
Qed.

(** ** The map *)

Lemma forEach_add_route_number (l : list Target) :
  forall i m,
    map snd (Leaflet.layers (JS.forEach_from MapComponent.add_route_number i l m))
    = map snd (Leaflet.layers m)
      ++ JS.map_from (fun t idx => Leaflet.RouteNumber (Z.of_nat idx + 1)
                                     (MapComponent.latlng t)) i l.
Proof.
  induction l as [|t l IH]; intros i m; simpl.
  - now rewrite app_nil_r.
  - rewrite IH. unfold MapComponent.add_route_number. simpl.
    rewrite map_app. simpl. now rewrite <- app_assoc.
Qed.

(** The guard of the route effect, as a proposition. *)
Lemma route_guard (targets : list Target) (showRoute : bool) :
  showRoute && (1 <? List.length targets)%nat = true
  <-> showRoute = true /\ (2 <= List.length targets)%nat.
Proof.
  rewrite andb_true_iff, Nat.ltb_lt. intuition lia.
Qed.

(** What one run of the effect leaves on the map when it draws ... *)
Lemma route_effect_draws (targets : list Target) (r : MapComponent.Refs)
      (m : Leaflet.Map) :
  MapComponent.mapRef r = Some m ->
  (2 <= List.length targets)%nat ->
  exists m',
    MapComponent.route_effect targets true r
    = {| MapComponent.mapRef := Some m';
         MapComponent.routeLayerRef :=
           Some (S (Leaflet.lastId (MapComponent.remove_route_line r m))) |}
    /\ map snd (Leaflet.layers m')
       = map snd (Leaflet.layers (MapComponent.remove_route_line r m))
         ++ Leaflet.Polyline
              (map MapComponent.latlng (JS.sort MapComponent.by_score_desc targets))
            :: route_numbers (JS.sort MapComponent.by_score_desc targets).
Proof.
  intros Hm Hlen. unfold MapComponent.route_effect. rewrite Hm.
  assert (true && (1 <? List.length targets)%nat = true) as ->
      by (apply route_guard; auto).
  simpl. eexists. split; [reflexivity|].
  unfold JS.forEach. rewrite forEach_add_route_number. simpl.
  rewrite map_app. simpl. now rewrite <- app_assoc.
Qed.

(** ... and when it does not. *)
Lemma route_effect_skips (targets : list Target) (showRoute : bool)
      (r : MapComponent.Refs) (m : Leaflet.Map) :
  MapComponent.mapRef r = Some m ->
  showRoute = false \/ (List.length targets < 2)%nat ->
  MapComponent.route_effect targets showRoute r
  = {| MapComponent.mapRef := Some (MapComponent.remove_route_line r m);
       MapComponent.routeLayerRef := None |}.
Proof.
  intros Hm Hno. unfold MapComponent.route_effect. rewrite Hm.
  destruct (showRoute && (1 <? List.length targets)%nat) eqn:E; [|reflexivity].
  apply route_guard in E. destruct E, Hno; [congruence | lia].
Qed.

(** Removing the line never adds a route artifact. *)
Lemma remove_route_line_artifacts (r : MapComponent.Refs) (m : Leaflet.Map) :
  Leaflet.route_artifacts m = [] ->
  Leaflet.route_artifacts (MapComponent.remove_route_line r m) = [].
Proof.
  unfold MapComponent.remove_route_line, Leaflet.route_artifacts.
  destruct (MapComponent.routeLayerRef r) as [line|]; [|auto].
  simpl. generalize (Leaflet.layers m). intros ls.
  induction ls as [|[k l] ls IH]; simpl; [auto|].
  destruct (Leaflet.is_route_artifact l) eqn:E; [discriminate|].
  intros H. destruct (negb (k =? line)%nat); simpl; [rewrite E|]; auto.
Qed.

(** ** The street sheet *)

Lemma street_sheet_source (st : Home.State) :
  (if (0 <? List.length (Home.routeTargets st))%nat
   then Home.routeTargets st else Home.targets st)
  = match Home.routeTargets st with
    | [] => Home.targets st
    | _ :: _ => Home.routeTargets st
    end.
Proof. destruct (Home.routeTargets st); reflexivity. Qed.

(* ===================================================================== *)
(** * The claims                                                         *)
(* ===================================================================== *)

(** C1, as stated, fails on the sheet: with the sample targets (scores 90,
    40, 70) loaded and no route picked, the street sheet prints the scores
    in the order 90, 40, 70, which is neither the order 90, 70, 40 nor
    descending. *)
Lemma street_sheet_prints_listed_order :
  map score (Home.targets (sample_page true [])) = [90; 40; 70]%Z
  /\ map Home.row_score (Home.street_sheet (sample_page true [])) = [90; 40; 70]%Z
  /\ map Home.row_score (Home.street_sheet (sample_page true [])) <> [90; 70; 40]%Z
  /\ ~ StronglySorted Z.ge (map Home.row_score (Home.street_sheet (sample_page true []))).
Proof.
  repeat split; try reflexivity.
  - discriminate.
  - intros H. inversion H as [|? ? H1 _]; subst.
    inversion H1 as [|? ? _ H2]; subst.
    inversion H2 as [|? ? H3 _]; subst. vm_compute in H3. now apply H3.
Qed.

(** C1 (amended): the line and the order badges of the route follow the
    target collection sorted by descending score: [sorted] is a
    permutation of the collection in descending order of score, and its
    score sequence is the same for every arrangement of the collection;
    whenever the route is drawn (route visibility on, at least two
    targets, map mounted) the line runs through the coordinates of
    [sorted] and the badges number it from 1.  The street sheet is not
    sorted: in every state its score column is the score sequence of the
    listed targets (the route if non-empty, else the collection) in the
    order they are held. *)
Theorem route_line_descending_sheet_as_listed (st : Home.State) :
  let sorted := JS.sort MapComponent.by_score_desc (Home.targets st) in
  (Permutation sorted (Home.targets st)
   /\ StronglySorted score_ge sorted
   /\ forall arrangement,
        Permutation arrangement (Home.targets st) ->
        map score (JS.sort MapComponent.by_score_desc arrangement) = map score sorted)
  /\ (forall (r : MapComponent.Refs) (m : Leaflet.Map),
        MapComponent.mapRef r = Some m ->
        Home.showRoute st = true ->
        (2 <= List.length (Home.targets st))%nat ->
        exists m',
          MapComponent.mapRef (MapComponent.render_route st r) = Some m'
          /\ map snd (Leaflet.layers m')
             = map snd (Leaflet.layers (MapComponent.remove_route_line r m))
               ++ Leaflet.Polyline (map MapComponent.latlng sorted)
                  :: route_numbers sorted)
  /\ map Home.row_score (Home.street_sheet st)
     = map score match Home.routeTargets st with
                 | [] => Home.targets st
                 | _ :: _ => Home.routeTargets st
                 end.
Proof.
  intros sorted. repeat split.
  - apply sort_perm.
  - apply sort_sorted.
  - intros arrangement HP. apply descending_unique.
    + apply scores_descending, sort_sorted.
    + apply scores_descending, sort_sorted.
    + apply Permutation_map. unfold sorted. rewrite !sort_perm. exact HP.
  - intros r m Hm Hshow Hlen.
    unfold MapComponent.render_route. rewrite Hshow.
    destruct (route_effect_draws (Home.targets st) r m Hm Hlen) as (m' & -> & Hl).
    exists m'. split; [reflexivity | exact Hl].
  - unfold Home.street_sheet, JS.mapi. rewrite street_sheet_source.
    now apply map_from_project.
Qed.

(** The sample targets: the line runs 90, 70, 40 on the mounted map with
    route visibility on; the sheet reads 90, 40, 70, with route visibility
    on or off. *)
Lemma route_line_descending_sheet_as_listed_sample :
  map score (JS.sort MapComponent.by_score_desc sample_targets) = [90; 70; 40]%Z
  /\ (exists m',
        MapComponent.mapRef
          (MapComponent.render_route (sample_page true []) MapComponent.mounted)
        = Some m'
        /\ filter Leaflet.is_polyline (map snd (Leaflet.layers m'))
           = [Leaflet.Polyline
                (map MapComponent.latlng [target_a; target_c; target_b])])
  /\ map Home.row_score (Home.street_sheet (sample_page true []))
     = map score sample_targets
  /\ map Home.row_score (Home.street_sheet (sample_page false []))
     = map score sample_targets.
Proof.
  split; [reflexivity|]. split; [|split].
  - destruct (proj1 (proj2 (route_line_descending_sheet_as_listed (sample_page true [])))
                    MapComponent.mounted _ eq_refl eq_refl) as (m' & Hm' & Hl).
    + simpl. lia.
    + exists m'. split; [exact Hm'|]. rewrite Hl. reflexivity.
  - exact (proj2 (proj2 (route_line_descending_sheet_as_listed (sample_page true [])))).
  - exact (proj2 (proj2 (route_line_descending_sheet_as_listed (sample_page false [])))).
Defined.

(** C2: the code does not do this.  Drawing the route for the sample
    targets, then hiding it, leaves the three order badges on the map (only
    the line is removed); showing it again adds three more. *)
Theorem route_numbers_outlive_rebuild :
  let drawn := MapComponent.route_effect sample_targets true MapComponent.mounted in
  let hidden := MapComponent.route_effect sample_targets false drawn in
  let shown_again := MapComponent.route_effect sample_targets true hidden in
  let line := Leaflet.Polyline (map MapComponent.latlng [target_a; target_c; target_b]) in
  let badges := route_numbers [target_a; target_c; target_b] in
  MapComponent.artifacts drawn = line :: badges
  /\ MapComponent.artifacts hidden = badges
  /\ MapComponent.artifacts shown_again = badges ++ line :: badges.
Proof. repeat split; reflexivity. Qed.

(** ** The route list *)

Lemma find_none_filter (i : string) (l : list Target) :
  find (fun t => id t =? i) l = None ->
  filter (fun t => negb (id t =? i)) l = l.
Proof.
  induction l as [|x l IH]; simpl; [reflexivity|].
  destruct (id x =? i) eqn:E; [discriminate|].
  intros H. simpl. now rewrite IH.
Qed.

Lemma find_none_iff (i : string) (l : list Target) :
  find (fun t => id t =? i) l = None <-> ~ In i (map id l).
Proof.
  induction l as [|x l IH]; simpl; [tauto|].
  destruct (id x =? i) eqn:E.
  - apply String.eqb_eq in E. split; [discriminate | intros H; elim H; now left].
  - apply String.eqb_neq in E. rewrite IH. tauto.
Qed.

Lemma find_past_prefix {X : Type} (p : X -> bool) (l l' : list X) :
  find p l = None -> find p (l ++ l') = find p l'.
Proof.
  induction l as [|x l IH]; simpl; [reflexivity|].
  destruct (p x); [discriminate | exact IH].
Qed.

Lemma NoDup_ids_filter (p : Target -> bool) (l : list Target) :
  NoDup (map id l) -> NoDup (map id (filter p l)).
Proof.
  induction l as [|x l IH]; simpl; intros H; [constructor|].
  inversion H as [|? ? Hx Hl]; subst.
  destruct (p x); simpl; [|auto].
  constructor; [|auto].
  intros Hin. apply Hx. apply in_map_iff in Hin as (t & Ht & Hf).
  apply in_map_iff. exists t. split; [assumption|].
  now apply filter_In in Hf.
Qed.

Lemma NoDup_ids_snoc (t : Target) (l : list Target) :
  NoDup (map id l) -> ~ In (id t) (map id l) -> NoDup (map id (l ++ [t])).
Proof.
  intros Hl Ht. rewrite map_app. simpl.
  apply NoDup_rev in Hl. rewrite <- (rev_involutive (map id l ++ [id t])).
  apply NoDup_rev. rewrite rev_app_distr. simpl.
  constructor; [|assumption].
  now rewrite <- in_rev.
Qed.

(** Every action of the page keeps the route free of repeated identifiers. *)
Lemma step_keeps_route_distinct (st : Home.State) (a : Home.Action) :
  NoDup (map id (Home.routeTargets st)) ->
  NoDup (map id (Home.routeTargets (Home.step st a))).
Proof.
  intros H. destruct a; simpl; try assumption.
  - unfold Home.handleTargetClick.
    destruct (find _ (Home.routeTargets st)) eqn:E; simpl.
    + now apply NoDup_ids_filter.
    + apply NoDup_ids_snoc; [assumption|]. now apply find_none_iff.
  - constructor.
Qed.

(** C3: for every state and every target [T] whose identifier is not in the
    route, one toggle appends [T] at the end, where it is the only entry
    with its identifier, and a second toggle gives back the state as it
    was, hence the route in its exact former sequence. *)
Theorem toggle_twice_restores_route (st : Home.State) (T : Target) :
  (forall t, In t (Home.routeTargets st) -> id t <> id T) ->
  Home.routeTargets (Home.handleTargetClick T st) = Home.routeTargets st ++ [T]
  /\ filter (fun t => id t =? id T) (Home.routeTargets (Home.handleTargetClick T st)) = [T]
  /\ Home.handleTargetClick T (Home.handleTargetClick T st) = st.
Proof.
  intros Hfresh.
  assert (find (fun t => id t =? id T) (Home.routeTargets st) = None) as Hnone.
  { apply find_none_iff. intros Hin. apply in_map_iff in Hin as (t & Hid & Ht).
    now apply (Hfresh t Ht). }
  assert (filter (fun t => id t =? id T) (Home.routeTargets st) = []) as Hnot.
  { clear Hnone. induction (Home.routeTargets st) as [|x l IH]; [reflexivity|].
    simpl. destruct (id x =? id T) eqn:E.
    - apply String.eqb_eq in E. elim (Hfresh x); [now left | assumption].
    - apply IH. intros t Ht. apply Hfresh. now right. }
  assert (Home.handleTargetClick T st
          = Home.setRouteTargets (Home.routeTargets st ++ [T]) st) as Hfirst.
  { unfold Home.handleTargetClick. now rewrite Hnone. }
  rewrite Hfirst. simpl. repeat split.
  - rewrite filter_app, Hnot. simpl. now rewrite String.eqb_refl.
  - unfold Home.handleTargetClick. simpl.
    rewrite (find_past_prefix _ _ _ Hnone). simpl. rewrite String.eqb_refl.
    rewrite filter_app, (find_none_filter _ _ Hnone). simpl.
    rewrite String.eqb_refl. simpl. rewrite app_nil_r.
    now destruct st.
Qed.

(** A route of two stops and a third target toggled in and out again. *)
Lemma toggle_twice_restores_route_sample :
  Home.handleTargetClick target_c
    (Home.handleTargetClick target_c (sample_page false [target_b; target_a]))
  = sample_page false [target_b; target_a].
Proof.
  refine (proj2 (proj2 (@toggle_twice_restores_route
                          (sample_page false [target_b; target_a]) target_c _))).
  intros t [<-|[<-|[]]]; discriminate.
Defined.

(** C4: from any state whose route is empty, whatever the user then does
    (toggles, clears, and every other action of the page), no two entries
    of the route carry the same identifier. *)
Theorem route_identifiers_distinct (st : Home.State) (acts : list Home.Action) :
  Home.routeTargets st = [] ->
  NoDup (map id (Home.routeTargets (Home.run acts st))).
Proof.
  intros Hempty.
  assert (NoDup (map id (Home.routeTargets st))) as H
      by (rewrite Hempty; constructor).
  clear Hempty. revert st H. unfold Home.run.
  induction acts as [|a acts IH]; intros st H; simpl; [assumption|].
  apply IH. now apply step_keeps_route_distinct.
Qed.

(** Four clicks and a clear on the freshly mounted page. *)
Lemma route_identifiers_distinct_sample :
  NoDup (map id (Home.routeTargets
                   (Home.run [Home.TargetClick target_a; Home.TargetClick target_b;
                              Home.TargetClick target_a; Home.ClearRoute;
                              Home.TargetClick target_c; Home.TargetClick target_a]
                             Home.initial))).
Proof. apply route_identifiers_distinct. reflexivity. Defined.

(** C5: whatever the state, the target identifier and the result,
    [logResult] adds one to [doors]; it adds one to [deals] for ['deal']
    and to [callbacks] for ['callback'] and leaves them alone otherwise;
    the route list and every other cell stay as they are. *)
Theorem logResult_counts (st : Home.State) (targetId : string) (result : Result) :
  let st' := Home.logResult targetId result st in
  doors (Home.stats st') = (doors (Home.stats st) + 1)%Z
  /\ deals (Home.stats st')
     = match result with
       | deal => (deals (Home.stats st) + 1)%Z
       | callback | ni | nh => deals (Home.stats st)
       end
  /\ callbacks (Home.stats st')
     = match result with
       | callback => (callbacks (Home.stats st) + 1)%Z
       | deal | ni | nh => callbacks (Home.stats st)
       end
  /\ Home.routeTargets st' = Home.routeTargets st
  /\ Home.showRoute st' = Home.showRoute st
  /\ Home.zones st' = Home.zones st
  /\ Home.targets st' = Home.targets st
  /\ Home.loading st' = Home.loading st
  /\ Home.showLMI st' = Home.showLMI st
  /\ Home.showTargets st' = Home.showTargets st
  /\ Home.currentView st' = Home.currentView st.
Proof. destruct result; repeat split. Qed.

(** C6: whatever the state, [handleClearRoute] leaves an empty route and
    route visibility off, and every other cell as it was. *)
Theorem clearRoute_empties_and_hides (st : Home.State) :
  let st' := Home.handleClearRoute st in
  Home.routeTargets st' = []
  /\ Home.showRoute st' = false
  /\ Home.zones st' = Home.zones st
  /\ Home.targets st' = Home.targets st
  /\ Home.loading st' = Home.loading st
  /\ Home.showLMI st' = Home.showLMI st
  /\ Home.showTargets st' = Home.showTargets st
  /\ Home.currentView st' = Home.currentView st
  /\ Home.stats st' = Home.stats st.
Proof. repeat split. Qed.

(** ** The data-loading effect *)

(** The zone cell is written before the target document is looked at, so
    it never depends on the target request. *)
Lemma zones_cell_independent engine (zoneOutcome targetOutcome targetOutcome' : DataLoad.FetchOutcome) :
  DataLoad.zones (DataLoad.cells_of (DataLoad.load engine zoneOutcome targetOutcome))
  = DataLoad.zones (DataLoad.cells_of (DataLoad.load engine zoneOutcome targetOutcome')).
Proof.
  unfold DataLoad.load, DataLoad.on_both.
  destruct (DataLoad.get_features _) as [features|]; [|reflexivity].
  set (c1 := if DataLoad.truthy features then _ else _).
  destruct (DataLoad.get_length (DataLoad.with_fallback targetOutcome _)) as [len|];
    destruct (DataLoad.get_length (DataLoad.with_fallback targetOutcome' _)) as [len'|];
    simpl;
    repeat match goal with
           | |- context [DataLoad.gt_zero engine ?l] =>
               destruct (DataLoad.gt_zero engine l) as [[|]|]; simpl
           end; reflexivity.
Qed.

(** C7: the code does not do this for a document that is the JSON value
    [null].  When the zone document is [null], reading its [features]
    throws inside the handler: the promise rejects, the target cell stays
    empty although the target document arrived intact, and [loading]
    stays true.  When it is the target document that is [null], reading
    its [length] throws: the handler rejects as well, after the zones
    were stored, and [loading] stays true. *)
Lemma null_document_rejects :
  (forall engine,
      DataLoad.load engine (DataLoad.Body DataLoad.JNull)
                    (DataLoad.Body sample_target_document)
      = DataLoad.Rejected DataLoad.initial)
  /\ DataLoad.targets DataLoad.initial = DataLoad.JArr []
  /\ DataLoad.loading DataLoad.initial = true
  /\ (forall engine,
         DataLoad.load engine (DataLoad.Body sample_zone_document)
                       (DataLoad.Body DataLoad.JNull)
         = DataLoad.Rejected {| DataLoad.zones := sample_zone_features;
                                DataLoad.targets := DataLoad.JArr [];
                                DataLoad.loading := true |}).
Proof. repeat split. Qed.

(** A request that failed yields no zones, and no targets. *)
Lemma fetch_failed_no_zones (o : DataLoad.FetchOutcome) :
  DataLoad.fetch_failed o -> no_zones o.
Proof. intros H. now left. Qed.

Lemma fetch_failed_no_targets engine (o : DataLoad.FetchOutcome) :
  DataLoad.fetch_failed o -> no_targets engine o.
Proof. intros H. now left. Qed.

(** With no zones delivered the handler goes on as for an empty
    [features] list, ... *)
Lemma no_zones_as_empty engine (zoneOutcome targetOutcome : DataLoad.FetchOutcome) :
  no_zones zoneOutcome ->
  DataLoad.load engine zoneOutcome targetOutcome
  = DataLoad.load engine
      (DataLoad.Body (DataLoad.JObj [("features", DataLoad.JArr [])])) targetOutcome.
Proof.
  intros [[-> | ->] | (doc & features & -> & Hf & Ht)]; try reflexivity.
  unfold DataLoad.load, DataLoad.on_both.
  cbn [DataLoad.with_fallback]. rewrite Hf, Ht. reflexivity.
Qed.

(** ... and with no targets delivered as for an empty array. *)
Lemma no_targets_as_empty engine (zoneOutcome targetOutcome : DataLoad.FetchOutcome) :
  no_targets engine targetOutcome ->
  DataLoad.load engine zoneOutcome targetOutcome
  = DataLoad.load engine zoneOutcome (DataLoad.Body (DataLoad.JArr [])).
Proof.
  intros [[-> | ->] | (doc & len & -> & Hl & Hg)]; try reflexivity.
  unfold DataLoad.load, DataLoad.on_both.
  destruct (DataLoad.get_features _) as [features|]; [|reflexivity].
  cbn [DataLoad.with_fallback]. rewrite Hl, Hg. reflexivity.
Qed.

(** X21: apart from a [null] document, every way a source can come
    without contents is absorbed.  A request that fails at the network,
    whose body is not JSON (an empty body included), or whose document is
    not [null] and lacks the expected field (no truthy [features] for the
    zones, no positive [length] for the targets) leaves its own cell
    empty, whatever the other request yields, and the handler goes on
    exactly as if that request had delivered an empty collection: the
    other cell receives what it would receive then.  When the other
    request comes without contents too, or delivers a document of the
    expected kind (an object for the zones, an array for the targets),
    the handler completes without throwing, [loading] is cleared, and the
    delivered target array, or the delivered [features] value when it is
    truthy, is what is stored. *)
Theorem load_absorbs_missing_contents
        engine (zoneOutcome targetOutcome : DataLoad.FetchOutcome) :
  let final := DataLoad.cells_of (DataLoad.load engine zoneOutcome targetOutcome) in
  (no_zones zoneOutcome ->
     DataLoad.zones final = DataLoad.JArr []
     /\ DataLoad.load engine zoneOutcome targetOutcome
        = DataLoad.load engine
            (DataLoad.Body (DataLoad.JObj [("features", DataLoad.JArr [])]))
            targetOutcome
     /\ (no_targets engine targetOutcome ->
           DataLoad.load engine zoneOutcome targetOutcome
           = DataLoad.Fulfilled {| DataLoad.zones := DataLoad.JArr [];
                                   DataLoad.targets := DataLoad.JArr [];
                                   DataLoad.loading := false |})
     /\ (forall items,
           targetOutcome = DataLoad.Body (DataLoad.JArr items) ->
           DataLoad.load engine zoneOutcome targetOutcome
           = DataLoad.Fulfilled {| DataLoad.zones := DataLoad.JArr [];
                                   DataLoad.targets := DataLoad.JArr items;
                                   DataLoad.loading := false |}))
  /\ (no_targets engine targetOutcome ->
        DataLoad.targets final = DataLoad.JArr []
        /\ DataLoad.load engine zoneOutcome targetOutcome
           = DataLoad.load engine zoneOutcome (DataLoad.Body (DataLoad.JArr []))
        /\ (forall fields,
              zoneOutcome = DataLoad.Body (DataLoad.JObj fields) ->
              DataLoad.load engine zoneOutcome targetOutcome
              = DataLoad.Fulfilled
                  {| DataLoad.zones :=
                       match DataLoad.own_property "features" fields with
                       | Some f =>
                           if DataLoad.truthy (Some f) then f else DataLoad.JArr []
                       | None => DataLoad.JArr []
                       end;
                     DataLoad.targets := DataLoad.JArr [];
                     DataLoad.loading := false |})).
Proof.
  split.
  - intros Hz. pose proof (no_zones_as_empty engine _ targetOutcome Hz) as Hsame.
    repeat split.
    + rewrite (zones_cell_independent engine zoneOutcome targetOutcome
                 DataLoad.NetworkError).
      now rewrite (no_zones_as_empty engine _ DataLoad.NetworkError Hz).
    + exact Hsame.
    + intros Ht. rewrite Hsame, (no_targets_as_empty engine _ _ Ht). reflexivity.
    + intros items ->. rewrite Hsame. destruct items; reflexivity.
  - intros Ht. pose proof (no_targets_as_empty engine zoneOutcome _ Ht) as Hsame.
    repeat split.
    + rewrite Hsame. unfold DataLoad.load, DataLoad.on_both.
      destruct (DataLoad.get_features _) as [features|]; [|reflexivity].
      simpl. destruct (DataLoad.truthy features); [|reflexivity].
      destruct features; reflexivity.
    + exact Hsame.
    + intros fields ->. rewrite Hsame. unfold DataLoad.load, DataLoad.on_both.
      cbn [DataLoad.get_features DataLoad.with_fallback].
      destruct (DataLoad.own_property "features" fields) as [f|]; [|reflexivity].
      destruct (DataLoad.truthy (Some f)); reflexivity.
Qed.

(** The zone document is an object without [features] while the sample
    target document arrives: the targets are loaded, the zones are empty.
    And the other way round, with a target document that is the number 7. *)
Lemma load_absorbs_missing_contents_sample :
  DataLoad.load sample_engine
    (DataLoad.Body (DataLoad.JObj [("type", DataLoad.JStr "FeatureCollection")]))
    (DataLoad.Body sample_target_document)
  = DataLoad.Fulfilled {| DataLoad.zones := DataLoad.JArr [];
                          DataLoad.targets := sample_target_document;
                          DataLoad.loading := false |}
  /\ DataLoad.load sample_engine
       (DataLoad.Body sample_zone_document) (DataLoad.Body (DataLoad.JNum 7))
     = DataLoad.Fulfilled {| DataLoad.zones := sample_zone_features;
                             DataLoad.targets := DataLoad.JArr [];
                             DataLoad.loading := false |}.
Proof.
  split.
  - refine (proj2 (proj2 (proj2 (proj1
      (load_absorbs_missing_contents sample_engine
         (DataLoad.Body (DataLoad.JObj [("type", DataLoad.JStr "FeatureCollection")]))
         (DataLoad.Body sample_target_document)) _))) _ eq_refl).
    right. exists (DataLoad.JObj [("type", DataLoad.JStr "FeatureCollection")]), None.
    repeat split.
  - refine (proj2 (proj2 (proj2
      (load_absorbs_missing_contents sample_engine
         (DataLoad.Body sample_zone_document) (DataLoad.Body (DataLoad.JNum 7))) _))
      _ eq_refl).
    right. exists (DataLoad.JNum 7), None. repeat split.
Defined.

(** C8: on a mounted map, one run of the route effect draws exactly when
    route visibility is on and the target collection holds at least two
    targets: then the line through the sorted collection and its badges
    are added; otherwise the map is left as it is after the former line
    was taken away and no line is referenced.  The route list plays no
    part: the page hands the effect the same thing whatever the route
    holds.  With no targets loaded, no sequence of visibility changes puts
    a line or a badge on a map that had none.  (The effect is a total
    function of its inputs: no step of it can throw.) *)
Theorem route_layer_guard
        (targets : list Target) (showRoute : bool)
        (r : MapComponent.Refs) (m : Leaflet.Map) :
  MapComponent.mapRef r = Some m ->
  let r' := MapComponent.route_effect targets showRoute r in
  (showRoute = true /\ (2 <= List.length targets)%nat ->
     exists m' line,
       MapComponent.mapRef r' = Some m'
       /\ MapComponent.routeLayerRef r' = Some line
       /\ map snd (Leaflet.layers m')
          = map snd (Leaflet.layers (MapComponent.remove_route_line r m))
            ++ Leaflet.Polyline
                 (map MapComponent.latlng (JS.sort MapComponent.by_score_desc targets))
               :: route_numbers (JS.sort MapComponent.by_score_desc targets))
  /\ (showRoute = false \/ (List.length targets < 2)%nat ->
        MapComponent.mapRef r' = Some (MapComponent.remove_route_line r m)
        /\ MapComponent.routeLayerRef r' = None)
  /\ (forall (st : Home.State) (route : list Target),
        MapComponent.render_route (Home.setRouteTargets route st) r
        = MapComponent.render_route st r)
  /\ (forall visibility : list bool,
        MapComponent.artifacts r = [] ->
        MapComponent.artifacts
          (MapComponent.rerender (map (fun v => ([], v)) visibility) r) = []).
Proof.
  intros Hm r'. repeat split.
  - intros [-> Hlen]. unfold r'.
    destruct (route_effect_draws targets r m Hm Hlen) as (m' & -> & Hl).
    exists m', (S (Leaflet.lastId (MapComponent.remove_route_line r m))).
    repeat split. exact Hl.
  - unfold r'. now rewrite (route_effect_skips targets showRoute r m Hm H).
  - unfold r'. now rewrite (route_effect_skips targets showRoute r m Hm H).
  - intros visibility. clear. revert r.
    induction visibility as [|v vs IH]; intros r Hnone; simpl; [assumption|].
    apply IH. unfold MapComponent.artifacts in *.
    destruct (MapComponent.mapRef r) as [m|] eqn:Hm.
    + rewrite (route_effect_skips [] v r m Hm) by (right; simpl; lia). simpl.
      now apply remove_route_line_artifacts.
    + unfold MapComponent.route_effect. rewrite Hm. now rewrite Hm.
Qed.

(** On the freshly mounted map with the sample targets and visibility on,
    the line is the third layer added and runs through targets a, c, b. *)
Lemma route_layer_guard_sample :
  exists m' line,
    MapComponent.mapRef (MapComponent.route_effect sample_targets true MapComponent.mounted)
    = Some m'
    /\ MapComponent.routeLayerRef
         (MapComponent.route_effect sample_targets true MapComponent.mounted)
       = Some line
    /\ map snd (Leaflet.layers m')
       = map snd (Leaflet.layers
                    (MapComponent.remove_route_line MapComponent.mounted
                       {| Leaflet.lastId := 2;
                          Leaflet.layers :=
                            [(1, Leaflet.TileLayer
                                   "https://{s}.basemaps.cartocdn.com/light_all/{z}/{x}/{y}{r}.png");
                             (2, Leaflet.LayerGroup)] |}))
         ++ Leaflet.Polyline
              (map MapComponent.latlng (JS.sort MapComponent.by_score_desc sample_targets))
            :: route_numbers (JS.sort MapComponent.by_score_desc sample_targets).
Proof.
  refine (proj1 (@route_layer_guard sample_targets true MapComponent.mounted _ eq_refl) _).
  split; [reflexivity | simpl; lia].
Defined.

(** C9: the street sheet lists the route when it is non-empty and the
    whole target collection otherwise, one row per listed target, in the
    order the list holds them, numbered 1, 2, 3, ...; each row carries the
    target's address, score, kWh and its LMI and owner marks. *)
Theorem street_sheet_lists_in_order (st : Home.State) :
  let listed := match Home.routeTargets st with
                | [] => Home.targets st
                | _ :: _ => Home.routeTargets st
                end in
  List.length (Home.street_sheet st) = List.length listed
  /\ map Home.row_number (Home.street_sheet st)
     = map (fun n => Z.of_nat n) (seq 1 (List.length listed))
  /\ map Home.row_key (Home.street_sheet st) = map id listed
  /\ map Home.row_address (Home.street_sheet st) = map address listed
  /\ map Home.row_score (Home.street_sheet st) = map score listed
  /\ map Home.row_kwh (Home.street_sheet st) = map kwh listed
  /\ (forall k t,
        nth_error listed k = Some t ->
        nth_error (Home.street_sheet st) k = Some (Home.sheet_row t k)).
Proof.
  intros listed. unfold Home.street_sheet, JS.mapi.
  rewrite street_sheet_source. fold listed. repeat split.
  - apply map_from_length.
  - rewrite (map_from_index Home.sheet_row Home.row_number
               (fun i => (Z.of_nat i + 1)%Z)) by reflexivity.
    rewrite <- seq_shift, map_map. apply map_ext. intros n. lia.
  - now apply map_from_project.
  - now apply map_from_project.
  - now apply map_from_project.
  - now apply map_from_project.
  - intros k t Hk. now rewrite (map_from_nth Home.sheet_row listed 0 k t Hk).
Qed.

(** ** The control panel *)

Lemma route_tab_disabled (p : ControlPanel.Props) (c : ControlPanel.Control) :
  In c (ControlPanel.route_tab p) ->
  ControlPanel.disabled c = true <-> ControlPanel.routeTargets p = [].
Proof.
  assert ((List.length (ControlPanel.routeTargets p) =? 0)%nat = true
          <-> ControlPanel.routeTargets p = []) as Hlen.
  { destruct (ControlPanel.routeTargets p); simpl; split; congruence. }
  intros [<-|[<-|[]]]; exact Hlen.
Qed.

(** Only the two buttons of the route tab call the print and clear
    callbacks. *)
Lemma print_or_clear_in_route_tab
      (activeTab : ControlPanel.Tab) (expandedScript : option string)
      (p : ControlPanel.Props) (c : ControlPanel.Control) :
  In c (ControlPanel.render activeTab expandedScript p) ->
  ControlPanel.handler c = ControlPanel.onPrintStreetSheet
  \/ ControlPanel.handler c = ControlPanel.onClearRoute ->
  activeTab = ControlPanel.tab_route /\ In c (ControlPanel.route_tab p).
Proof.
  unfold ControlPanel.render. rewrite !in_app_iff.
  intros [Hc|[Hc|[Hc|Hc]]] Hh.
  - simpl in Hc. repeat destruct Hc as [<-|Hc]; try contradiction;
      simpl in Hh; destruct Hh; discriminate.
  - destruct (ControlPanel.Tab_eqb activeTab ControlPanel.tab_layers);
      [|contradiction].
    simpl in Hc. repeat destruct Hc as [<-|Hc]; try contradiction;
      simpl in Hh; destruct Hh; discriminate.
  - destruct activeTab; simpl in Hc; try contradiction. now split.
  - destruct (ControlPanel.Tab_eqb activeTab ControlPanel.tab_scripts);
      [|contradiction].
    unfold ControlPanel.scripts_tab in Hc. apply in_map_iff in Hc as (o & <- & _).
    simpl in Hh. destruct Hh; discriminate.
Qed.

(** C10: whatever the page state and the panel's own state, a control on
    screen that calls the print or the clear callback is disabled exactly
    when the route list is empty, and the route tab shows both; so a click
    that reaches [onPrintStreetSheet] happens with a non-empty route, and
    the sheet then printed lists the route, not the whole collection. *)
Theorem print_button_needs_route
        (st : Home.State) (activeTab : ControlPanel.Tab)
        (expandedScript : option string) (c : ControlPanel.Control) :
  In c (ControlPanel.render activeTab expandedScript (ControlPanel.props_of st)) ->
  (ControlPanel.handler c = ControlPanel.onPrintStreetSheet
   \/ ControlPanel.handler c = ControlPanel.onClearRoute ->
     (ControlPanel.disabled c = true <-> Home.routeTargets st = []))
  /\ (ControlPanel.activate c = Some ControlPanel.onPrintStreetSheet ->
        Home.routeTargets st <> []
        /\ Home.street_sheet st = JS.mapi Home.sheet_row (Home.routeTargets st))
  /\ (exists print clear,
        In print (ControlPanel.render ControlPanel.tab_route expandedScript
                    (ControlPanel.props_of st))
        /\ ControlPanel.handler print = ControlPanel.onPrintStreetSheet
        /\ In clear (ControlPanel.render ControlPanel.tab_route expandedScript
                       (ControlPanel.props_of st))
        /\ ControlPanel.handler clear = ControlPanel.onClearRoute).
Proof.
  intros Hc.
  assert (ControlPanel.handler c = ControlPanel.onPrintStreetSheet
          \/ ControlPanel.handler c = ControlPanel.onClearRoute ->
          (ControlPanel.disabled c = true <-> Home.routeTargets st = [])) as Hdis.
  { intros Hh.
    destruct (print_or_clear_in_route_tab _ _ _ _ Hc Hh) as [_ Hin].
    exact (route_tab_disabled _ _ Hin). }
  split; [exact Hdis|]. split.
  - unfold ControlPanel.activate.
    destruct (ControlPanel.disabled c) eqn:Ed; [discriminate|].
    intros [= Hh].
    assert (Home.routeTargets st <> []) as Hne.
    { intros He. apply (Hdis (or_introl Hh)) in He. congruence. }
    split; [exact Hne|].
    unfold Home.street_sheet.
    destruct (Home.routeTargets st); [now elim Hne | reflexivity].
  - eexists _, _. unfold ControlPanel.render. simpl.
    split; [right; right; right; left; reflexivity|].
    split; [reflexivity|].
    split; [right; right; right; right; left; reflexivity | reflexivity].
Qed.

(** With an empty route the print button is on screen, disabled, and a
    click on it calls nothing. *)
Lemma print_button_needs_route_sample :
  let print := {| ControlPanel.kind := ControlPanel.button;
                  ControlPanel.caption := "Print Street Sheet";
                  ControlPanel.disabled := true;
                  ControlPanel.handler := ControlPanel.onPrintStreetSheet |} in
  (ControlPanel.disabled print = true <-> Home.routeTargets (sample_page false []) = [])
  /\ ControlPanel.activate print = None.
Proof.
  split; [|reflexivity].
  refine (proj1 (@print_button_needs_route (sample_page false [])
                   ControlPanel.tab_route None _ _) _).
  - simpl. right; right; right; left. reflexivity.
  - left. reflexivity.
Defined.

(* ===================================================================== *)
(** * Further properties                                                 *)
(* ===================================================================== *)

(** ** Order badges accumulate *)

Lemma route_numbers_only (l : list Target) :
  forall i,
    filter Leaflet.is_route_number
      (JS.map_from (fun t idx => Leaflet.RouteNumber (Z.of_nat idx + 1)
                                   (MapComponent.latlng t)) i l)
    = JS.map_from (fun t idx => Leaflet.RouteNumber (Z.of_nat idx + 1)
                                  (MapComponent.latlng t)) i l.
Proof.
  induction l as [|t l IH]; intros i; simpl; [reflexivity|]. now rewrite IH.
Qed.

Lemma filter_route_number_artifacts (ls : list Leaflet.Layer) :
  filter Leaflet.is_route_number (filter Leaflet.is_route_artifact ls)
  = filter Leaflet.is_route_number ls.
Proof.
  induction ls as [|l ls IH]; simpl; [reflexivity|].
  destruct l; simpl; now rewrite ?IH.
Qed.

(** The badges added by [forEach] get stamps of their own, above every
    stamp issued before. *)
Lemma forEach_add_route_number_stamps (l : list Target) :
  forall i m,
    (Leaflet.lastId m
     <= Leaflet.lastId (JS.forEach_from MapComponent.add_route_number i l m))%nat
    /\ exists added,
        Leaflet.layers (JS.forEach_from MapComponent.add_route_number i l m)
        = Leaflet.layers m ++ added
        /\ Forall (fun e =>
                     (Leaflet.lastId m < fst e)%nat
                     /\ (fst e <= Leaflet.lastId
                                    (JS.forEach_from MapComponent.add_route_number i l m))%nat)
                  added.
Proof.
  induction l as [|t l IH]; intros i m; simpl.
  - split; [lia|]. exists []. split; [now rewrite app_nil_r | constructor].
  - destruct (IH (S i) (MapComponent.add_route_number t i m)) as (Hle & added & Hl & Hs).
    simpl in Hle, Hl, Hs. split; [lia|].
    eexists (_ :: added). split.
    + rewrite Hl, <- app_assoc. reflexivity.
    + constructor; [simpl; lia|].
      eapply Forall_impl; [|exact Hs]. simpl. intros e He. lia.
Qed.

(** Taking a layer away that is not an order badge keeps the badges. *)
Lemma removeLayer_keeps_route_numbers (line : nat) (ls : list (nat * Leaflet.Layer)) :
  Forall (fun e => fst e = line -> Leaflet.is_route_number (snd e) = false) ls ->
  filter Leaflet.is_route_number
    (map snd (filter (fun e => negb (fst e =? line)%nat) ls))
  = filter Leaflet.is_route_number (map snd ls).
Proof.
  induction 1 as [|[k l] ls Hk _ IH]; simpl; [reflexivity|].
  destruct (k =? line)%nat eqn:E; simpl.
  - apply Nat.eqb_eq in E. simpl in Hk. rewrite (Hk E). exact IH.
  - now rewrite IH.
Qed.

Lemma remove_route_line_stamps (r : MapComponent.Refs) (m : Leaflet.Map) :
  Forall (fun e => (fst e <= Leaflet.lastId m)%nat) (Leaflet.layers m) ->
  Leaflet.lastId (MapComponent.remove_route_line r m) = Leaflet.lastId m
  /\ Forall (fun e => (fst e <= Leaflet.lastId m)%nat)
            (Leaflet.layers (MapComponent.remove_route_line r m)).
Proof.
  intros H. unfold MapComponent.remove_route_line.
  destruct (MapComponent.routeLayerRef r) as [line|]; simpl; [|auto].
  split; [reflexivity|].
  induction H as [|e ls He _ IH]; simpl; [constructor|].
  destruct (negb (fst e =? line)%nat); [constructor|]; assumption.
Qed.

Lemma mounted_consistent : refs_consistent MapComponent.mounted.
Proof.
  unfold refs_consistent. simpl. split; [|exact I].
  repeat constructor.
Qed.

(** One run of the effect keeps the refs consistent and adds its badges
    behind those already on the map; none is taken away. *)
Lemma route_effect_accumulates (targets : list Target) (showRoute : bool)
      (r : MapComponent.Refs) :
  refs_consistent r ->
  refs_consistent (MapComponent.route_effect targets showRoute r)
  /\ badges_on_map (MapComponent.route_effect targets showRoute r)
     = badges_on_map r ++ badges_drawn (targets, showRoute).
Proof.
  unfold refs_consistent, badges_on_map, MapComponent.artifacts,
    Leaflet.route_artifacts, badges_drawn.
  destruct (MapComponent.mapRef r) as [m|] eqn:Hm; [|contradiction].
  intros [Hstamps Hline].
  rewrite !filter_route_number_artifacts.
  destruct (remove_route_line_stamps r m Hstamps) as [Hlast Hstamps1].
  assert (filter Leaflet.is_route_number
            (map snd (Leaflet.layers (MapComponent.remove_route_line r m)))
          = filter Leaflet.is_route_number (map snd (Leaflet.layers m))) as Hkeep.
  { unfold MapComponent.remove_route_line.
    destruct (MapComponent.routeLayerRef r) as [line|]; [|reflexivity].
    now apply removeLayer_keeps_route_numbers. }
  simpl fst. simpl snd.
  destruct (showRoute && (1 <? List.length targets)%nat) eqn:G.
  - apply route_guard in G as [-> Hlen].
    destruct (route_effect_draws targets r m Hm Hlen) as (m' & Hrun & Hl).
    rewrite Hrun. simpl. rewrite filter_route_number_artifacts.
    split.
    + (* consistency *)
      unfold MapComponent.route_effect in Hrun. rewrite Hm in Hrun.
      assert (true && (1 <? List.length targets)%nat = true) as Hg
          by (apply route_guard; auto).
      rewrite Hg in Hrun. simpl in Hrun. injection Hrun as Hm'.
      set (sorted := JS.sort MapComponent.by_score_desc targets) in *.
      set (m2 := {| Leaflet.lastId := S (Leaflet.lastId (MapComponent.remove_route_line r m));
                    Leaflet.layers := _ |}) in Hm'.
      destruct (forEach_add_route_number_stamps sorted 0 m2) as (Hle & added & Hadd & Hs).
      unfold JS.forEach in Hm'. rewrite Hm' in Hle, Hadd, Hs.
      simpl in Hle, Hadd, Hs. rewrite Hadd, !Forall_app. repeat split.
      * eapply Forall_impl; [|exact Hstamps1]. simpl. intros e He. lia.
      * repeat constructor. simpl. lia.
      * eapply Forall_impl; [|exact Hs]. simpl. intros e He. lia.
      * eapply Forall_impl; [|exact Hstamps1]. simpl. intros e He Hcontra. lia.
      * repeat constructor.
      * eapply Forall_impl; [|exact Hs]. simpl. intros e He Hcontra. lia.
    + rewrite Hl, filter_app, Hkeep. simpl. unfold route_numbers, JS.mapi.
      now rewrite route_numbers_only.
  - rewrite (route_effect_skips targets showRoute r m Hm).
    + cbn [MapComponent.mapRef MapComponent.routeLayerRef].
      rewrite filter_route_number_artifacts, Hkeep, app_nil_r. split; [|reflexivity].
      split; [|exact I]. now rewrite Hlast.
    + destruct showRoute; simpl in G; [right|left; reflexivity].
      apply Nat.ltb_ge in G. lia.
Qed.

(** X1: over any sequence of runs of the route effect on the mounted map,
    the order badges on the map are those of every drawing run so far, in
    the order drawn: each run adds its badges and none is ever removed. *)
Theorem route_numbers_accumulate (props : list (list Target * bool)) :
  badges_on_map (MapComponent.rerender props MapComponent.mounted)
  = List.concat (map badges_drawn props).
Proof.
  pose proof mounted_consistent as Hinv.
  assert (badges_on_map MapComponent.mounted = []) as Hnone by reflexivity.
  rewrite <- (app_nil_l (List.concat _)), <- Hnone. clear Hnone.
  revert Hinv. generalize MapComponent.mounted.
  unfold MapComponent.rerender.
  induction props as [|[targets showRoute] props IH]; intros r Hinv; simpl.
  - now rewrite app_nil_r.
  - destruct (route_effect_accumulates targets showRoute r Hinv) as [Hinv' Hb].
    rewrite (IH _ Hinv'), Hb. now rewrite <- app_assoc.
Qed.

(** X2: in the drawn route, targets of equal score keep the order they
    have in the target collection (the sort is stable). *)
Theorem route_order_stable (s : Z) (targets : list Target) :
  filter (fun t => (score t =? s)%Z) (JS.sort MapComponent.by_score_desc targets)
  = filter (fun t => (score t =? s)%Z) targets.
Proof.
  induction targets as [|x l IH]; [reflexivity|].
  change (JS.sort MapComponent.by_score_desc (x :: l))
    with (JS.insert MapComponent.by_score_desc x (JS.sort MapComponent.by_score_desc l)).
  rewrite insert_filter.
  - simpl. now rewrite IH.
  - intros y Hx Hy. apply Z.eqb_eq in Hx, Hy.
    apply Z.leb_le. unfold MapComponent.by_score_desc. lia.
Qed.

(** ** The tally *)

Lemma step_tally_grows (st : Home.State) (a : Home.Action) :
  (doors (Home.stats st) <= doors (Home.stats (Home.step st a)))%Z
  /\ (deals (Home.stats st) <= deals (Home.stats (Home.step st a)))%Z
  /\ (callbacks (Home.stats st) <= callbacks (Home.stats (Home.step st a)))%Z.
Proof.
  destruct a; simpl; try (repeat split; lia).
  - unfold Home.handleTargetClick. destruct (find _ _); simpl; repeat split; lia.
  - destruct result; simpl; repeat split; lia.
Qed.

(** X3: no action of the page ever lowers a counter of the session tally. *)
Theorem tally_never_decreases (st : Home.State) (acts : list Home.Action) :
  (doors (Home.stats st) <= doors (Home.stats (Home.run acts st)))%Z
  /\ (deals (Home.stats st) <= deals (Home.stats (Home.run acts st)))%Z
  /\ (callbacks (Home.stats st) <= callbacks (Home.stats (Home.run acts st)))%Z.
Proof.
  unfold Home.run. revert st.
  induction acts as [|a acts IH]; intros st; simpl; [repeat split; lia|].
  destruct (step_tally_grows st a) as (H1 & H2 & H3).
  destruct (IH (Home.step st a)) as (H4 & H5 & H6).
  repeat split; lia.
Qed.

(** ** More on the route list *)

(** X4: a click on a target whose identifier is in the route removes every
    entry with that identifier and keeps the others in their order. *)
Theorem toggle_member_removes (st : Home.State) (T : Target) :
  In (id T) (map id (Home.routeTargets st)) ->
  Home.routeTargets (Home.handleTargetClick T st)
  = filter (fun t => negb (id t =? id T)) (Home.routeTargets st)
  /\ ~ In (id T) (map id (Home.routeTargets (Home.handleTargetClick T st))).
Proof.
  intros Hin. unfold Home.handleTargetClick.
  destruct (find _ (Home.routeTargets st)) as [found|] eqn:E.
  - simpl. split; [reflexivity|].
    intros Hc. apply in_map_iff in Hc as (t & Hid & Ht).
    apply filter_In in Ht as [_ Ht]. rewrite Hid, String.eqb_refl in Ht.
    discriminate.
  - apply find_none_iff in E. contradiction.
Qed.

Lemma toggle_member_removes_sample :
  Home.routeTargets
    (Home.handleTargetClick target_b (sample_page false [target_b; target_a]))
  = [target_a].
Proof.
  refine (proj1 (toggle_member_removes
                   (sample_page false [target_b; target_a]) target_b _)).
  simpl. left. reflexivity.
Defined.

Lemma step_keeps_targets (st : Home.State) (a : Home.Action) :
  Home.targets (Home.step st a) = Home.targets st.
Proof.
  destruct a; simpl; try reflexivity.
  unfold Home.handleTargetClick. now destruct (find _ _).
Qed.

Lemma step_route_within (st : Home.State) (a : Home.Action) :
  (forall t, a = Home.TargetClick t -> In t (Home.targets st)) ->
  incl (Home.routeTargets st) (Home.targets st) ->
  incl (Home.routeTargets (Home.step st a)) (Home.targets st).
Proof.
  intros Ha Hincl. destruct a; simpl; try assumption.
  - unfold Home.handleTargetClick. destruct (find _ _) as [found|]; simpl.
    + intros x Hx. apply filter_In in Hx as [Hx _]. now apply Hincl.
    + intros x Hx. apply in_app_or in Hx as [Hx|[<-|[]]]; [now apply Hincl|].
      now apply Ha.
  - intros t [].
Qed.

(** X5: when the stops are picked among the markers of the loaded
    targets, the route, started empty, never holds more stops than there
    are targets. *)
Theorem route_bounded_by_collection (st : Home.State) (acts : list Home.Action) :
  Home.routeTargets st = [] ->
  (forall t, In (Home.TargetClick t) acts -> In t (Home.targets st)) ->
  (List.length (Home.routeTargets (Home.run acts st))
   <= List.length (Home.targets st))%nat.
Proof.
  intros Hempty Hclicks.
  assert (incl (Home.routeTargets (Home.run acts st)) (Home.targets st)
          /\ NoDup (map id (Home.routeTargets (Home.run acts st)))) as [Hincl Hnd].
  { assert (incl (Home.routeTargets st) (Home.targets st)
            /\ NoDup (map id (Home.routeTargets st))) as H0
        by (rewrite Hempty; split; [intros t [] | constructor]).
    clear Hempty. revert st H0 Hclicks. unfold Home.run.
    induction acts as [|a acts IH]; intros st [Hi Hn] Hclicks; simpl; [now split|].
    rewrite <- (step_keeps_targets st a).
    apply IH.
    - split.
      + rewrite step_keeps_targets. apply step_route_within; [|assumption].
        intros t ->. apply Hclicks. now left.
      + now apply step_keeps_route_distinct.
    - intros t Ht. rewrite step_keeps_targets. apply Hclicks. now right. }
  rewrite <- (length_map id (Home.routeTargets _)), <- (length_map id (Home.targets st)).
  apply NoDup_incl_length; [assumption|].
  now apply incl_map.
Qed.

Lemma route_bounded_by_collection_sample :
  (List.length
     (Home.routeTargets
        (Home.run [Home.TargetClick target_a; Home.TargetClick target_c;
                   Home.TargetClick target_a; Home.TargetClick target_b]
                  (sample_page false [])))
   <= List.length sample_targets)%nat.
Proof.
  refine (route_bounded_by_collection (sample_page false []) _ eq_refl _).
  intros t [H|[H|[H|[H|[]]]]]; injection H as <-; simpl; tauto.
Defined.

(** ** The route line does not accumulate *)

Lemma filter_polyline_artifacts (ls : list Leaflet.Layer) :
  filter Leaflet.is_polyline (filter Leaflet.is_route_artifact ls)
  = filter Leaflet.is_polyline ls.
Proof.
  induction ls as [|l ls IH]; simpl; [reflexivity|].
  destruct l; simpl; now rewrite ?IH.
Qed.

Lemma no_polyline_filter (ls : list (nat * Leaflet.Layer)) :
  Forall (fun e => Leaflet.is_polyline (snd e) = false) ls ->
  filter Leaflet.is_polyline (map snd ls) = [].
Proof.
  induction 1 as [|e ls He _ IH]; simpl; [reflexivity|]. now rewrite He.
Qed.

(** [forEach] adds order badges only. *)
Lemma forEach_adds_no_line (l : list Target) :
  forall i m,
  exists added,
    Leaflet.layers (JS.forEach_from MapComponent.add_route_number i l m)
    = Leaflet.layers m ++ added
    /\ Forall (fun e => Leaflet.is_polyline (snd e) = false) added.
Proof.
  induction l as [|t l IH]; intros i m; simpl.
  - exists []. split; [now rewrite app_nil_r | constructor].
  - destruct (IH (S i) (MapComponent.add_route_number t i m)) as (added & Hl & Hk).
    simpl in Hl. eexists (_ :: added). split.
    + rewrite Hl, <- app_assoc. reflexivity.
    + constructor; [reflexivity | exact Hk].
Qed.

(** Once the referenced line is taken away, no line is left. *)
Lemma remove_route_line_clears (r : MapComponent.Refs) (m : Leaflet.Map) :
  Forall (fun e => Leaflet.is_polyline (snd e) = true ->
                   MapComponent.routeLayerRef r = Some (fst e)) (Leaflet.layers m) ->
  Forall (fun e => Leaflet.is_polyline (snd e) = false)
         (Leaflet.layers (MapComponent.remove_route_line r m)).
Proof.
  unfold MapComponent.remove_route_line.
  destruct (MapComponent.routeLayerRef r) as [line|]; simpl.
  - induction 1 as [|e ls He _ IH]; simpl; [constructor|].
    destruct (fst e =? line)%nat eqn:E; simpl; [exact IH|].
    constructor; [|exact IH].
    destruct (Leaflet.is_polyline (snd e)); [|reflexivity].
    specialize (He eq_refl). injection He as He. subst line.
    rewrite Nat.eqb_refl in E. discriminate.
  - intros H. eapply Forall_impl; [|exact H]. simpl. intros e He.
    destruct (Leaflet.is_polyline (snd e)); [|reflexivity].
    specialize (He eq_refl). discriminate.
Qed.

Lemma mounted_line_tracked : line_tracked MapComponent.mounted.
Proof.
  unfold line_tracked. simpl. repeat constructor; simpl; discriminate.
Qed.

(** One run of the effect leaves exactly the line it draws, if any. *)
Lemma route_effect_one_line (targets : list Target) (showRoute : bool)
      (r : MapComponent.Refs) :
  line_tracked r ->
  line_tracked (MapComponent.route_effect targets showRoute r)
  /\ lines_on_map (MapComponent.route_effect targets showRoute r)
     = line_drawn (targets, showRoute).
Proof.
  unfold line_tracked, lines_on_map, MapComponent.artifacts,
    Leaflet.route_artifacts, line_drawn.
  destruct (MapComponent.mapRef r) as [m|] eqn:Hm; [|contradiction].
  intros Htracked. apply remove_route_line_clears in Htracked.
  cbn [fst snd].
  destruct (showRoute && (1 <? List.length targets)%nat) eqn:G.
  - unfold MapComponent.route_effect. rewrite Hm, G.
    cbn [Leaflet.addTo]. unfold JS.forEach.
    set (m2 := {| Leaflet.lastId := _; Leaflet.layers := _ |}).
    destruct (forEach_adds_no_line (JS.sort MapComponent.by_score_desc targets) 0 m2)
      as (added & Hl & Hk).
    cbn [MapComponent.mapRef MapComponent.routeLayerRef].
    rewrite filter_polyline_artifacts, Hl. subst m2. cbn [Leaflet.layers].
    split.
    + rewrite !Forall_app. repeat split.
      * eapply Forall_impl; [|exact Htracked]. simpl. intros e He Hp. congruence.
      * repeat constructor.
      * eapply Forall_impl; [|exact Hk]. simpl. intros e He Hp. congruence.
    + rewrite !map_app, !filter_app, (no_polyline_filter _ Htracked),
        (no_polyline_filter _ Hk). reflexivity.
  - rewrite (route_effect_skips targets showRoute r m Hm).
    + cbn [MapComponent.mapRef MapComponent.routeLayerRef].
      rewrite filter_polyline_artifacts, (no_polyline_filter _ Htracked).
      split; [|reflexivity].
      eapply Forall_impl; [|exact Htracked]. simpl. intros e He Hp. congruence.
    + destruct showRoute; simpl in G; [right|left; reflexivity].
      apply Nat.ltb_ge in G. lia.
Qed.

Lemma rerender_tracked (props : list (list Target * bool)) :
  forall r, line_tracked r -> line_tracked (MapComponent.rerender props r).
Proof.
  unfold MapComponent.rerender.
  induction props as [|[t v] props IH]; intros r Hr; simpl; [assumption|].
  apply IH. now apply route_effect_one_line.
Qed.

(** X7: unlike the badges, the route line does not pile up: after any
    history of runs of the route effect on the mounted map, a run with
    given targets and visibility leaves exactly one line, through the
    sorted collection, when visibility is on and there are at least two
    targets, and no line otherwise. *)
Theorem route_line_never_accumulates
        (history : list (list Target * bool)) (targets : list Target)
        (showRoute : bool) :
  lines_on_map (MapComponent.rerender (history ++ [(targets, showRoute)])
                                      MapComponent.mounted)
  = if showRoute && (1 <? List.length targets)%nat
    then [Leaflet.Polyline
            (map MapComponent.latlng (JS.sort MapComponent.by_score_desc targets))]
    else [].
Proof.
  unfold MapComponent.rerender. rewrite fold_left_app. simpl.
  apply (route_effect_one_line targets showRoute).
  apply (rerender_tracked history), mounted_line_tracked.
Qed.

(** ** The target markers *)

Lemma forEach_add_marker (l : list Target) :
  forall i group,
    JS.forEach_from TargetMarkers.add_marker i l group
    = group ++ map TargetMarkers.marker_of l.
Proof.
  induction l as [|t l IH]; intros i group; simpl.
  - now rewrite app_nil_r.
  - rewrite IH. unfold TargetMarkers.add_marker. now rewrite <- app_assoc.
Qed.

Lemma marker_rerender_mounted (props : list (list Target * bool)) :
  forall r,
    TargetMarkers.mapRef r = true ->
    TargetMarkers.markerLayerRef r <> None ->
    TargetMarkers.mapRef (TargetMarkers.rerender props r) = true
    /\ TargetMarkers.markerLayerRef (TargetMarkers.rerender props r) <> None.
Proof.
  unfold TargetMarkers.rerender.
  induction props as [|[t v] props IH]; intros r Hm Hg; simpl; [now split|].
  apply IH; unfold TargetMarkers.marker_effect; rewrite Hm;
    destruct (TargetMarkers.markerLayerRef r); try contradiction; simpl;
    [reflexivity | discriminate].
Qed.

(** X8: after any history of runs of the marker effect on the mounted
    map, a run with given targets and visibility leaves one marker per
    target, in the order of the collection, when the layer is on, and no
    marker when it is off; nothing of earlier runs stays.  The k-th marker
    stands at the k-th target's position, shows its score, and its click
    hands that target to the page. *)
Theorem markers_mirror_targets
        (history : list (list Target * bool)) (targets : list Target)
        (showTargets : bool) :
  let shown := TargetMarkers.markers
                 (TargetMarkers.rerender (history ++ [(targets, showTargets)])
                                         TargetMarkers.mounted) in
  shown = (if showTargets then map TargetMarkers.marker_of targets else [])
  /\ map TargetMarkers.on_click shown = (if showTargets then targets else [])
  /\ map TargetMarkers.icon_label shown = (if showTargets then map score targets else [])
  /\ map TargetMarkers.position shown
     = (if showTargets then map MapComponent.latlng targets else []).
Proof.
  intros shown.
  assert (shown = if showTargets then map TargetMarkers.marker_of targets else [])
    as Hshown.
  { destruct (marker_rerender_mounted history TargetMarkers.mounted eq_refl)
      as [Hm Hg]; [discriminate|].
    unfold shown, TargetMarkers.rerender in *. rewrite fold_left_app.
    set (r := fold_left _ history _) in *. cbn [fold_left fst snd].
    unfold TargetMarkers.marker_effect. rewrite Hm.
    destruct (TargetMarkers.markerLayerRef r); [|contradiction].
    unfold TargetMarkers.markers. cbn [TargetMarkers.markerLayerRef].
    destruct showTargets; simpl; [|reflexivity].
    destruct targets as [|t rest]; [reflexivity|].
    cbn [List.length Nat.ltb Nat.leb]. unfold JS.forEach.
    now rewrite forEach_add_marker. }
  rewrite Hshown. destruct showTargets; simpl; repeat split; try reflexivity.
  - rewrite map_map. simpl. apply map_id.
  - now rewrite map_map.
  - now rewrite map_map.
Qed.

(** ** The zone layer *)

Section ZoneFacts.

Variable getBounds : list Zone -> option ZoneLayer.Bounds.

Lemma mounted_zone_tracked : zone_tracked ZoneLayer.mounted.
Proof. reflexivity. Qed.

(** One run of the zone effect leaves the layer it builds and no other. *)
Lemma zone_effect_one_layer (zones : list Zone) (showLMI : bool) (r : ZoneLayer.Refs) :
  zone_tracked r ->
  zone_tracked (ZoneLayer.zone_effect getBounds zones showLMI r)
  /\ ZoneLayer.shown (ZoneLayer.zone_effect getBounds zones showLMI r)
     = if showLMI && (0 <? List.length zones)%nat
       then [{| ZoneLayer.features := zones;
                ZoneLayer.tooltips := map ZoneLayer.tooltip_of zones |}]
       else [].
Proof.
  unfold zone_tracked, ZoneLayer.shown, ZoneLayer.zone_effect.
  destruct (ZoneLayer.mapRef r) as [m|]; [|contradiction].
  intros Htracked.
  assert (ZoneLayer.zone_layers
            match ZoneLayer.zoneLayerRef r with
            | Some layer => ZoneLayer.removeLayer layer m
            | None => m
            end = []) as Hclear.
  { destruct (ZoneLayer.zoneLayerRef r) as [layer|]; [|assumption].
    destruct Htracked as [l Hl]. simpl. rewrite Hl. simpl.
    now rewrite Nat.eqb_refl. }
  destruct (showLMI && (0 <? List.length zones)%nat).
  - cbn [ZoneLayer.addTo]. rewrite Hclear.
    destruct (getBounds zones); simpl; (split; [eexists|]; reflexivity).
  - simpl. now rewrite Hclear.
Qed.

Lemma zone_rerender_tracked (props : list (list Zone * bool)) :
  forall r, zone_tracked r -> zone_tracked (ZoneLayer.rerender getBounds props r).
Proof.
  unfold ZoneLayer.rerender.
  induction props as [|[z v] props IH]; intros r Hr; simpl; [assumption|].
  apply IH. now apply zone_effect_one_layer.
Qed.

(** X9: after any history of runs of the zone effect on the mounted map,
    a run with given zones and visibility leaves exactly one zone layer,
    holding those zones with one tooltip each, when the layer is on and
    there is at least one zone, and no zone layer otherwise: turning the
    layer off, or reloading it, leaves nothing stale. *)
Theorem zone_layer_never_stale
        (history : list (list Zone * bool)) (zones : list Zone) (showLMI : bool) :
  ZoneLayer.shown (ZoneLayer.rerender getBounds (history ++ [(zones, showLMI)])
                                      ZoneLayer.mounted)
  = match showLMI, zones with
    | true, _ :: _ => [{| ZoneLayer.features := zones;
                          ZoneLayer.tooltips := map ZoneLayer.tooltip_of zones |}]
    | _, _ => []
    end.
Proof.
  unfold ZoneLayer.rerender. rewrite fold_left_app. cbn [fold_left fst snd].
  destruct (zone_effect_one_layer zones showLMI
              (ZoneLayer.rerender getBounds history ZoneLayer.mounted)) as [_ H].
  - apply zone_rerender_tracked, mounted_zone_tracked.
  - unfold ZoneLayer.rerender in H. rewrite H.
    destruct showLMI, zones; reflexivity.
Qed.

(** X10: the zone effect moves the view only when it builds a layer whose
    bounds are valid, and then fits it to those bounds with a padding of
    20; hiding the layer, an empty zone collection, or invalid bounds
    leave the view where it was, whatever the history. *)
Theorem zone_effect_view
        (history : list (list Zone * bool)) (zones : list Zone) (showLMI : bool) :
  let before := ZoneLayer.rerender getBounds history ZoneLayer.mounted in
  ZoneLayer.view_of (ZoneLayer.zone_effect getBounds zones showLMI before)
  = match showLMI, zones, getBounds zones with
    | true, _ :: _, Some bounds => Some (ZoneLayer.fitBounds bounds (20, 20)%Z)
    | _, _, _ => ZoneLayer.view_of before
    end.
Proof.
  intros before.
  pose proof (zone_rerender_tracked history _ mounted_zone_tracked) as Htracked.
  fold before in Htracked. unfold zone_tracked in Htracked.
  unfold ZoneLayer.view_of, ZoneLayer.zone_effect.
  destruct (ZoneLayer.mapRef before) as [m|]; [|contradiction].
  assert (ZoneLayer.view
            match ZoneLayer.zoneLayerRef before with
            | Some layer => ZoneLayer.removeLayer layer m
            | None => m
            end = ZoneLayer.view m) as Hview
      by (destruct (ZoneLayer.zoneLayerRef before); reflexivity).
  destruct showLMI; [|simpl; now rewrite Hview].
  destruct zones as [|z zs]; [simpl; now rewrite Hview|].
  cbn [andb List.length Nat.ltb Nat.leb ZoneLayer.addTo].
  destruct (getBounds (z :: zs)); simpl; [reflexivity | now rewrite Hview].
Qed.

End ZoneFacts.

(** X11: the tooltip of a zone never shows a blank name or identifier: a
    zone with an empty name is labelled [Zone] and one with a name by that
    name; a zone with an empty identifier shows [N/A] and one with an
    identifier that identifier; the county line is blank exactly when the
    county is missing or empty, and otherwise reads [County: ] followed
    by the county. *)
Theorem tooltip_never_blank (zone : Zone) :
  let t := ZoneLayer.tooltip_of zone in
  ZoneLayer.tooltip_name t <> ""
  /\ ZoneLayer.tooltip_geoid t <> ""
  /\ (NAME (properties zone) = "" -> ZoneLayer.tooltip_name t = "Zone")
  /\ (NAME (properties zone) <> "" ->
      ZoneLayer.tooltip_name t = NAME (properties zone))
  /\ (GEOID (properties zone) = "" -> ZoneLayer.tooltip_geoid t = "N/A")
  /\ (GEOID (properties zone) <> "" ->
      ZoneLayer.tooltip_geoid t = GEOID (properties zone))
  /\ match COUNTY_NAME (properties zone) with
     | Some (String c rest) =>
         ZoneLayer.tooltip_county t = ("County: " ++ String c rest)%string
     | Some EmptyString | None => ZoneLayer.tooltip_county t = ""
     end.
Proof.
  unfold ZoneLayer.tooltip_of. cbn zeta.
  cbn [ZoneLayer.tooltip_name ZoneLayer.tooltip_geoid ZoneLayer.tooltip_county].
  repeat split.
  - destruct (NAME (properties zone) =? "")%string eqn:E; [discriminate|].
    now apply String.eqb_neq in E.
  - destruct (GEOID (properties zone) =? "")%string eqn:E; [discriminate|].
    now apply String.eqb_neq in E.
  - intros ->. reflexivity.
  - intros H. apply String.eqb_neq in H. now rewrite H.
  - intros ->. reflexivity.
  - intros H. apply String.eqb_neq in H. now rewrite H.
  - destruct (COUNTY_NAME (properties zone)) as [[|c rest]|]; reflexivity.
Qed.

(** ** The locate control *)

Lemma locate_run_snoc (outcomes : list LocateControl.Outcome)
      (o : LocateControl.Outcome) (s : LocateControl.State) :
  LocateControl.run (outcomes ++ [o]) s
  = LocateControl.on_outcome (LocateControl.run outcomes s) o.
Proof. unfold LocateControl.run. now rewrite fold_left_app. Qed.

(** X12: over any sequence of outcomes of the locate control, every fix
    adds a marker and none is ever taken away, so the map ends with one
    marker per fix, in order; every failure adds one alert with the
    error's message and nothing else.  The view and the stored location
    are those of the last fix, at zoom 15, or untouched when there was
    none. *)
Theorem locate_markers_accumulate
        (outcomes : list LocateControl.Outcome) (s : LocateControl.State) :
  let s' := LocateControl.run outcomes s in
  LocateControl.user_markers s' = LocateControl.user_markers s ++ fixes outcomes
  /\ LocateControl.alerts s'
     = LocateControl.alerts s
       ++ map (fun message => ("Could not get location: " ++ message)%string)
              (failures outcomes)
  /\ match rev (fixes outcomes) with
     | [] => LocateControl.view s' = LocateControl.view s
             /\ LocateControl.userLocation s' = LocateControl.userLocation s
     | loc :: _ => LocateControl.view s' = ZoneLayer.setView loc 15
                   /\ LocateControl.userLocation s' = Some loc
     end.
Proof.
  induction outcomes as [|o outcomes IH] using rev_ind.
  - simpl. rewrite !app_nil_r. repeat split.
  - cbn zeta in *. rewrite locate_run_snoc.
    destruct IH as (Hm & Ha & Hv).
    unfold fixes, failures in *. rewrite !flat_map_app. simpl.
    destruct o as [la lo | message]; simpl.
    + rewrite !app_nil_r, Hm, Ha, <- app_assoc. simpl.
      rewrite rev_app_distr. simpl. repeat split.
    + rewrite !app_nil_r, Hm, Ha, map_app, <- app_assoc. simpl.
      repeat split. exact Hv.
Qed.

(** ** The stop list of the panel and the printed sheet *)

(** X13: with a non-empty route, the stop list of the panel and the
    printed street sheet show the same stops in the same order under the
    same numbers, and the header counts them; with an empty route the
    panel shows only its hint while the sheet lists every loaded target. *)
Theorem panel_stops_match_sheet (st : Home.State) :
  let panel := RouteTab.body (ControlPanel.props_of st) in
  let sheet := Home.street_sheet st in
  (Home.routeTargets st <> [] ->
     panel = RouteTab.Stops (List.length sheet) (RouteTab.rows panel)
     /\ map RouteTab.stop_number (RouteTab.rows panel) = map Home.row_number sheet
     /\ map RouteTab.stop_key (RouteTab.rows panel) = map Home.row_key sheet
     /\ map RouteTab.stop_address (RouteTab.rows panel) = map Home.row_address sheet
     /\ map RouteTab.stop_score (RouteTab.rows panel) = map Home.row_score sheet)
  /\ (Home.routeTargets st = [] ->
        panel = RouteTab.Hint "Click targets on map to add to route"
        /\ map Home.row_key sheet = map id (Home.targets st)).
Proof.
  intros panel sheet. unfold panel, sheet, RouteTab.body, Home.street_sheet.
  cbn [ControlPanel.props_of ControlPanel.routeTargets].
  split.
  - intros Hne. destruct (Home.routeTargets st) as [|t l] eqn:E; [contradiction|].
    cbn [List.length Nat.eqb Nat.ltb Nat.leb RouteTab.rows].
    unfold JS.mapi. rewrite !map_from_length. repeat split.
    + rewrite (map_from_index RouteTab.stop_row RouteTab.stop_number
                 (fun i => (Z.of_nat i + 1)%Z)) by reflexivity.
      now rewrite (map_from_index Home.sheet_row Home.row_number
                     (fun i => (Z.of_nat i + 1)%Z)) by reflexivity.
    + rewrite (map_from_project RouteTab.stop_row RouteTab.stop_key id) by reflexivity.
      now rewrite (map_from_project Home.sheet_row Home.row_key id) by reflexivity.
    + rewrite (map_from_project RouteTab.stop_row RouteTab.stop_address address)
        by reflexivity.
      now rewrite (map_from_project Home.sheet_row Home.row_address address)
        by reflexivity.
    + rewrite (map_from_project RouteTab.stop_row RouteTab.stop_score score)
        by reflexivity.
      now rewrite (map_from_project Home.sheet_row Home.row_score score)
        by reflexivity.
  - intros ->. simpl. split; [reflexivity|].
    unfold JS.mapi. now apply map_from_project.
Qed.

(** ** The page as the user drives it *)

Lemma page_markers (ui : Page.UI) :
  Page.markers ui
  = if Home.showTargets (Page.page ui)
    then map TargetMarkers.marker_of (Home.targets (Page.page ui))
    else [].
Proof.
  unfold Page.markers, TargetMarkers.marker_effect, TargetMarkers.markers. simpl.
  destruct (Home.showTargets (Page.page ui)); [|reflexivity].
  destruct (Home.targets (Page.page ui)) as [|t l]; [reflexivity|].
  cbn [andb List.length Nat.ltb Nat.leb]. unfold JS.forEach.
  now rewrite forEach_add_marker.
Qed.

(** A click on a control of the panel changes the panel's own cells, or
    does to the page what one of the page's callbacks does. *)
Lemma panel_click_is_step (c : ControlPanel.Control) (ui : Page.UI) :
  Page.page (Page.panel_click c ui) = Page.page ui
  \/ exists a,
       ControlPanel.activate c = Some (ControlPanel.handler c)
       /\ ControlPanel.page_action (ControlPanel.handler c) = Some a
       /\ Page.page (Page.panel_click c ui) = Home.step (Page.page ui) a.
Proof.
  unfold Page.panel_click, ControlPanel.activate.
  destruct (ControlPanel.disabled c); [now left|].
  destruct (ControlPanel.handler c) eqn:E; simpl; try (now left);
    right; eexists; repeat split.
Qed.

(** Every click leaves the page as it is or runs one action on it, never
    [logResult], and a toggle only of a loaded target. *)
Lemma click_is_step (ui : Page.UI) (ck : Page.Click) :
  Page.page (Page.click ui ck) = Page.page ui
  \/ exists a,
       click_action (Page.page ui) a
       /\ Page.page (Page.click ui ck) = Home.step (Page.page ui) a.
Proof.
  destruct ck as [k|k|]; simpl.
  - destruct (nth_error (Page.markers ui) k) as [mk|] eqn:E; [|now left].
    right. exists (Home.TargetClick (TargetMarkers.on_click mk)). split; [|reflexivity].
    simpl. apply nth_error_In in E. rewrite page_markers in E.
    destruct (Home.showTargets (Page.page ui)); [|contradiction].
    apply in_map_iff in E as (t & <- & Ht). exact Ht.
  - destruct (nth_error (Page.controls ui) k) as [c|]; [|now left].
    destruct (panel_click_is_step c ui) as [H|(a & _ & Ha & Hs)]; [now left|].
    right. exists a. split; [|exact Hs].
    destruct (ControlPanel.handler c); simpl in Ha; try discriminate;
      injection Ha as <-; exact I.
  - destruct (Page.start_route_shown ui); [|now left].
    right. exists Home.StartRoute. now split.
Qed.

Lemma click_action_frame (st : Home.State) (a : Home.Action) :
  click_action st a ->
  Home.stats (Home.step st a) = Home.stats st
  /\ Home.zones (Home.step st a) = Home.zones st
  /\ Home.loading (Home.step st a) = Home.loading st
  /\ Home.currentView (Home.step st a) = Home.currentView st.
Proof.
  destruct a; simpl; try contradiction; intros _; repeat split;
    unfold Home.handleTargetClick; destruct (find _ _); reflexivity.
Qed.

(** X14: no sequence of clicks on markers, panel controls and the floating
    button ever changes the session tally: no control calls [logResult],
    so the three counters in the header stay what they were.  The loaded
    zones and targets, the loading flag and the current view stay as well:
    clicks reach only the route list and the three visibility flags. *)
Theorem clicks_never_touch_tally (cs : list Page.Click) (ui : Page.UI) :
  let st' := Page.page (Page.clicks cs ui) in
  Home.stats st' = Home.stats (Page.page ui)
  /\ Home.targets st' = Home.targets (Page.page ui)
  /\ Home.zones st' = Home.zones (Page.page ui)
  /\ Home.loading st' = Home.loading (Page.page ui)
  /\ Home.currentView st' = Home.currentView (Page.page ui).
Proof.
  cbn zeta. unfold Page.clicks. revert ui.
  induction cs as [|ck cs IH]; intros ui; simpl; [repeat split|].
  destruct (IH (Page.click ui ck)) as (H1 & H2 & H3 & H4 & H5).
  rewrite H1, H2, H3, H4, H5. clear IH H1 H2 H3 H4 H5.
  destruct (click_is_step ui ck) as [-> | (a & Ha & ->)]; [repeat split|].
  destruct (click_action_frame _ _ Ha) as (F1 & F2 & F3 & F4).
  rewrite F1, F2, F3, F4, step_keeps_targets. repeat split.
Qed.

(** X15: started with an empty route, whatever the user clicks, every stop
    of the route is one of the loaded targets, no identifier occurs twice
    among the stops, and the route never has more stops than there are
    targets. *)
Theorem route_stops_are_loaded_targets (cs : list Page.Click) (ui : Page.UI) :
  Home.routeTargets (Page.page ui) = [] ->
  let route := Home.routeTargets (Page.page (Page.clicks cs ui)) in
  incl route (Home.targets (Page.page ui))
  /\ NoDup (map id route)
  /\ (List.length route <= List.length (Home.targets (Page.page ui)))%nat.
Proof.
  intros Hempty route.
  assert (incl route (Home.targets (Page.page ui)) /\ NoDup (map id route)) as [Hi Hn].
  { unfold route, Page.clicks.
    assert (incl (Home.routeTargets (Page.page ui)) (Home.targets (Page.page ui))
            /\ NoDup (map id (Home.routeTargets (Page.page ui)))) as H0
        by (rewrite Hempty; split; [intros t [] | constructor]).
    clear Hempty route. revert ui H0.
    induction cs as [|ck cs IH]; intros ui [Hi Hn]; simpl; [now split|].
    assert (Home.targets (Page.page (Page.click ui ck)) = Home.targets (Page.page ui)
            /\ incl (Home.routeTargets (Page.page (Page.click ui ck)))
                    (Home.targets (Page.page ui))
            /\ NoDup (map id (Home.routeTargets (Page.page (Page.click ui ck)))))
      as (Ht & Hi' & Hn').
    { destruct (click_is_step ui ck) as [-> | (a & Ha & ->)]; [now repeat split|].
      split; [apply step_keeps_targets|]. split.
      - apply step_route_within; [|assumption]. intros t ->. exact Ha.
      - now apply step_keeps_route_distinct. }
    rewrite <- Ht. apply IH. rewrite Ht. now split. }
  repeat split; try assumption.
  rewrite <- (length_map id route), <- (length_map id (Home.targets _)).
  apply NoDup_incl_length; [assumption | now apply incl_map].
Qed.

(** Two clicks on the first marker and one on the third, from the loaded
    sample page. *)
Lemma route_stops_are_loaded_targets_sample :
  incl (Home.routeTargets
          (Page.page (Page.clicks [Page.OnMarker 0; Page.OnMarker 2; Page.OnMarker 0]
                                  (Page.loaded [] sample_targets))))
       sample_targets.
Proof.
  exact (proj1 (route_stops_are_loaded_targets
                  [Page.OnMarker 0; Page.OnMarker 2; Page.OnMarker 0]
                  (Page.loaded [] sample_targets) eq_refl)).
Defined.

(** X16: whichever click turns route visibility on (the Walking Route
    checkbox or the floating button), it leaves the route list as it is,
    and with at least two targets loaded the effect then draws the line
    and the badges through the whole target collection in descending
    order of score, whatever the route list holds, be it empty. *)
Theorem route_line_ignores_route_list
        (ui : Page.UI) (ck : Page.Click) (r : MapComponent.Refs) (m : Leaflet.Map) :
  Home.showRoute (Page.page ui) = false ->
  Home.showRoute (Page.page (Page.click ui ck)) = true ->
  MapComponent.mapRef r = Some m ->
  (2 <= List.length (Home.targets (Page.page ui)))%nat ->
  let sorted := JS.sort MapComponent.by_score_desc (Home.targets (Page.page ui)) in
  Home.routeTargets (Page.page (Page.click ui ck)) = Home.routeTargets (Page.page ui)
  /\ exists m',
       MapComponent.mapRef (MapComponent.render_route (Page.page (Page.click ui ck)) r)
       = Some m'
       /\ map snd (Leaflet.layers m')
          = map snd (Leaflet.layers (MapComponent.remove_route_line r m))
            ++ Leaflet.Polyline (map MapComponent.latlng sorted) :: route_numbers sorted.
Proof.
  intros Hoff Hon Hm Hlen sorted.
  assert (Home.routeTargets (Page.page (Page.click ui ck))
          = Home.routeTargets (Page.page ui)
          /\ Home.targets (Page.page (Page.click ui ck))
             = Home.targets (Page.page ui)) as [Hroute Htargets].
  { destruct (click_is_step ui ck) as [H | (a & Ha & H)]; rewrite H in *.
    - congruence.
    - split; [|apply step_keeps_targets].
      destruct a; simpl in *; try reflexivity; try congruence.
      unfold Home.handleTargetClick in Hon.
      destruct (find _ _); simpl in Hon; congruence. }
  split; [exact Hroute|].
  unfold MapComponent.render_route. rewrite Hon, Htargets.
  destruct (route_effect_draws (Home.targets (Page.page ui)) r m Hm Hlen)
    as (m' & -> & Hl).
  exists m'. split; [reflexivity | exact Hl].
Qed.

(** The sample page, no stop picked: ticking Walking Route (the sixth
    control of the layers tab) leaves the route empty and draws. *)
Lemma route_line_ignores_route_list_sample :
  Home.routeTargets
    (Page.page (Page.click (Page.loaded [] sample_targets) (Page.OnControl 5)))
  = [].
Proof.
  refine (proj1 (route_line_ignores_route_list
                   (Page.loaded [] sample_targets) (Page.OnControl 5)
                   MapComponent.mounted _ eq_refl eq_refl eq_refl _)).
  simpl. lia.
Defined.

(** X17: a click on the panel's Clear button does nothing while the route
    is empty (the button is disabled).  With a non-empty route it empties
    the route and turns route visibility off; after it the floating Start
    Route button is gone, Print and Clear are disabled wherever they are
    on screen, and the next run of the route effect leaves no line on a
    map whose lines were tracked. *)
Theorem clear_click_resets_route
        (ui : Page.UI) (c : ControlPanel.Control) :
  In c (Page.controls ui) ->
  ControlPanel.handler c = ControlPanel.onClearRoute ->
  let ui' := Page.panel_click c ui in
  (Home.routeTargets (Page.page ui) = [] -> ui' = ui)
  /\ (Home.routeTargets (Page.page ui) <> [] ->
        Home.routeTargets (Page.page ui') = []
        /\ Home.showRoute (Page.page ui') = false
        /\ Page.start_route_shown ui' = false
        /\ (forall c',
              In c' (Page.controls ui') ->
              ControlPanel.handler c' = ControlPanel.onPrintStreetSheet
              \/ ControlPanel.handler c' = ControlPanel.onClearRoute ->
              ControlPanel.disabled c' = true)
        /\ (forall r,
              line_tracked r ->
              lines_on_map (MapComponent.render_route (Page.page ui') r) = [])).
Proof.
  intros Hc Hh ui'.
  destruct (print_or_clear_in_route_tab _ _ _ _ Hc (or_intror Hh)) as [_ Hin].
  pose proof (route_tab_disabled _ _ Hin) as Hdis.
  cbn [ControlPanel.props_of ControlPanel.routeTargets] in Hdis.
  split.
  - intros Hempty. apply Hdis in Hempty.
    unfold ui', Page.panel_click, ControlPanel.activate. now rewrite Hempty.
  - intros Hne.
    assert (ControlPanel.disabled c = false) as Hen.
    { destruct (ControlPanel.disabled c); [|reflexivity].
      elim Hne. now apply Hdis. }
    assert (ui' = Page.with_page (Home.handleClearRoute (Page.page ui)) ui) as ->.
    { unfold ui', Page.panel_click, ControlPanel.activate. now rewrite Hen, Hh. }
    repeat split.
    + intros c' Hc' Hh'.
      destruct (print_or_clear_in_route_tab _ _ _ _ Hc' Hh') as [_ Hin'].
      now apply (route_tab_disabled _ _ Hin').
    + intros r Hr.
      destruct (route_effect_one_line
                  (Home.targets (Page.page ui)) false r Hr) as [_ H].
      exact H.
Qed.

(** The sample page with a route of two stops: Clear is the fifth control
    of the route tab. *)
Lemma clear_click_resets_route_sample :
  Home.routeTargets
    (Page.page
       (Page.panel_click
          {| ControlPanel.kind := ControlPanel.button; ControlPanel.caption := "Clear";
             ControlPanel.disabled := false;
             ControlPanel.handler := ControlPanel.onClearRoute |}
          {| Page.page := sample_page true [target_b; target_a];
             Page.activeTab := ControlPanel.tab_route;
             Page.expandedScript := None |}))
  = [].
Proof.
  refine (proj1 (proj2 (clear_click_resets_route
                          {| Page.page := sample_page true [target_b; target_a];
                             Page.activeTab := ControlPanel.tab_route;
                             Page.expandedScript := None |}
                          {| ControlPanel.kind := ControlPanel.button;
                             ControlPanel.caption := "Clear";
                             ControlPanel.disabled := false;
                             ControlPanel.handler := ControlPanel.onClearRoute |}
                          _ eq_refl) _)).
  - simpl. right; right; right; right; left. reflexivity.
  - discriminate.
Defined.

Lemma checkbox_in_layers_tab
      (activeTab : ControlPanel.Tab) (expandedScript : option string)
      (p : ControlPanel.Props) (c : ControlPanel.Control) :
  In c (ControlPanel.render activeTab expandedScript p) ->
  ControlPanel.kind c = ControlPanel.checkbox ->
  activeTab = ControlPanel.tab_layers /\ In c (ControlPanel.layers_tab p).
Proof.
  unfold ControlPanel.render. rewrite !in_app_iff.
  intros [Hc|[Hc|[Hc|Hc]]] Hk.
  - simpl in Hc. repeat destruct Hc as [<-|Hc]; try contradiction; discriminate.
  - destruct activeTab; simpl in Hc; try contradiction. now split.
  - destruct (ControlPanel.Tab_eqb activeTab ControlPanel.tab_route);
      [|contradiction].
    simpl in Hc. repeat destruct Hc as [<-|Hc]; try contradiction; discriminate.
  - destruct (ControlPanel.Tab_eqb activeTab ControlPanel.tab_scripts);
      [|contradiction].
    unfold ControlPanel.scripts_tab in Hc. apply in_map_iff in Hc as (o & <- & _).
    discriminate.
Qed.

(** X18: each of the three layer checkboxes is a switch: a click on it,
    then a click on the checkbox of the same caption as rendered anew,
    gives back the page and the panel exactly as they were. *)
Theorem checkbox_twice_restores (ui : Page.UI) (c : ControlPanel.Control) :
  In c (Page.controls ui) ->
  ControlPanel.kind c = ControlPanel.checkbox ->
  exists c',
    In c' (Page.controls (Page.panel_click c ui))
    /\ ControlPanel.caption c' = ControlPanel.caption c
    /\ Page.panel_click c' (Page.panel_click c ui) = ui.
Proof.
  intros Hc Hk. destruct ui as [st tab exp]. unfold Page.controls in *.
  cbn [Page.page Page.activeTab Page.expandedScript] in *.
  destruct (checkbox_in_layers_tab _ _ _ _ Hc Hk) as [-> Hin].
  destruct st as [zs ts ld sl stg sr rt cv stats].
  simpl in Hin. destruct Hin as [<-|[<-|[<-|[]]]].
  - eexists {| ControlPanel.kind := ControlPanel.checkbox;
               ControlPanel.caption := "LMI Auto-Qualify Zones";
               ControlPanel.disabled := false;
               ControlPanel.handler := ControlPanel.setShowLMI (negb (negb sl)) |}.
    repeat split.
    + simpl. right; right; right; left. reflexivity.
    + unfold Page.panel_click. simpl. now rewrite negb_involutive.
  - eexists {| ControlPanel.kind := ControlPanel.checkbox;
               ControlPanel.caption := "Target Addresses";
               ControlPanel.disabled := false;
               ControlPanel.handler := ControlPanel.setShowTargets (negb (negb stg)) |}.
    repeat split.
    + simpl. right; right; right; right; left. reflexivity.
    + unfold Page.panel_click. simpl. now rewrite negb_involutive.
  - eexists {| ControlPanel.kind := ControlPanel.checkbox;
               ControlPanel.caption := "Walking Route";
               ControlPanel.disabled := false;
               ControlPanel.handler := ControlPanel.setShowRoute (negb (negb sr)) |}.
    repeat split.
    + simpl. do 5 right. left. reflexivity.
    + unfold Page.panel_click. simpl. now rewrite negb_involutive.
Qed.

Lemma checkbox_twice_restores_sample :
  exists c',
    In c' (Page.controls
             (Page.panel_click
                {| ControlPanel.kind := ControlPanel.checkbox;
                   ControlPanel.caption := "Target Addresses";
                   ControlPanel.disabled := false;
                   ControlPanel.handler := ControlPanel.setShowTargets false |}
                (Page.loaded [] sample_targets)))
    /\ ControlPanel.caption c' = "Target Addresses"
    /\ Page.panel_click c'
         (Page.panel_click
            {| ControlPanel.kind := ControlPanel.checkbox;
               ControlPanel.caption := "Target Addresses";
               ControlPanel.disabled := false;
               ControlPanel.handler := ControlPanel.setShowTargets false |}
            (Page.loaded [] sample_targets))
       = Page.loaded [] sample_targets.
Proof.
  refine (checkbox_twice_restores
            (Page.loaded [] sample_targets)
            {| ControlPanel.kind := ControlPanel.checkbox;
               ControlPanel.caption := "Target Addresses";
               ControlPanel.disabled := false;
               ControlPanel.handler := ControlPanel.setShowTargets false |}
            _ eq_refl).
  simpl. right; right; right; right; left. reflexivity.
Defined.

(** ** More on the data-loading effect *)

(** X19: however the two requests end, the effect stores nothing but what
    was delivered: the target cell ends empty or holding the delivered
    target document itself, the zone cell ends empty or holding the value
    of the [features] property of the delivered zone object; and the
    [loading] flag is cleared exactly when the handler did not throw. *)
Theorem load_stores_only_delivered
        engine (zoneOutcome targetOutcome : DataLoad.FetchOutcome) :
  let settled := DataLoad.load engine zoneOutcome targetOutcome in
  let final := DataLoad.cells_of settled in
  DataLoad.loading final = DataLoad.rejected settled
  /\ (DataLoad.targets final = DataLoad.JArr []
      \/ targetOutcome = DataLoad.Body (DataLoad.targets final))
  /\ (DataLoad.zones final = DataLoad.JArr []
      \/ exists fields,
           zoneOutcome = DataLoad.Body (DataLoad.JObj fields)
           /\ DataLoad.own_property "features" fields = Some (DataLoad.zones final)).
Proof.
  cbn zeta. unfold DataLoad.load, DataLoad.on_both.
  destruct (DataLoad.get_features _) as [features|] eqn:Ef;
    [|repeat split; now left].
  set (c1 := if DataLoad.truthy features then _ else _).
  assert (DataLoad.targets c1 = DataLoad.JArr [] /\ DataLoad.loading c1 = true
          /\ (DataLoad.zones c1 = DataLoad.JArr []
              \/ exists fields,
                   zoneOutcome = DataLoad.Body (DataLoad.JObj fields)
                   /\ DataLoad.own_property "features" fields
                      = Some (DataLoad.zones c1))) as (Ht1 & Hl1 & Hz1).
  { unfold c1. destruct (DataLoad.truthy features); [|repeat split; now left].
    destruct features as [f|]; [|repeat split; now left].
    repeat split. destruct zoneOutcome as [| |doc]; simpl in Ef.
    - simpl in Ef. injection Ef as <-. now left.
    - simpl in Ef. injection Ef as <-. now left.
    - destruct doc; simpl in Ef; try discriminate. injection Ef as Ef.
      right. eexists. split; [reflexivity | exact Ef]. }
  clearbody c1.
  destruct (DataLoad.get_length _) as [len|] eqn:El; [|now repeat split; auto].
  destruct (DataLoad.gt_zero engine len) as [[|]|]; simpl; repeat split; auto.
  destruct targetOutcome as [| |doc]; simpl; auto.
Qed.

(** ** Click order *)

(** X20: targets clicked one after the other, none of them in the route
    and no two with the same identifier, are appended in the order
    clicked: the route list is the former route followed by the clicked
    targets. *)
Theorem route_keeps_click_order (st : Home.State) (clicked : list Target) :
  NoDup (map id (Home.routeTargets st ++ clicked)) ->
  Home.routeTargets (Home.run (map Home.TargetClick clicked) st)
  = Home.routeTargets st ++ clicked.
Proof.
  unfold Home.run. revert st.
  induction clicked as [|t ts IH]; intros st Hnd; simpl.
  - now rewrite app_nil_r.
  - assert (find (fun x => id x =? id t)%string (Home.routeTargets st) = None) as Hnone.
    { apply find_none_iff. rewrite map_app in Hnd. simpl in Hnd.
      apply NoDup_remove_2 in Hnd. intros Hin. apply Hnd.
      apply in_or_app. now left. }
    assert (Home.routeTargets (Home.handleTargetClick t st)
            = Home.routeTargets st ++ [t]) as Hstep
        by (unfold Home.handleTargetClick; now rewrite Hnone).
    rewrite IH; rewrite Hstep, <- app_assoc; [reflexivity | exact Hnd].
Qed.

Lemma route_keeps_click_order_sample :
  Home.routeTargets
    (Home.run (map Home.TargetClick [target_c; target_a])
              (sample_page false [target_b]))
  = [target_b; target_c; target_a].
Proof.
  refine (route_keeps_click_order (sample_page false [target_b])
                                  [target_c; target_a] _).
  simpl. repeat constructor; simpl; intuition discriminate.
Defined.
